(** * highdicom.spatial: pixel matrix <-> frame of reference mappings

    Shallow embedding of [src/highdicom/spatial.py].

    Numbers.  The source computes with IEEE binary64 floats through numpy.
    This development idealises them as the real numbers [R]: every
    arithmetic operation is exact and there are no infinities and no NaN.
    A zero among the arguments stands for the float [0.0]; the sign of a
    zero is kept in the one place where the source can observe it, the
    first argument of [np.arctan2], which [compute_rotation] obtains by a
    unary minus.  Statements that the source documentation qualifies with
    "within floating tolerance" are therefore proved here as exact
    equalities over [R].

    Sequences.  Every [Sequence[float]] argument is a [list R], its
    elements being floats as annotated; indexing out of range raises
    [IndexError] as Python does.

    Errors.  Python exceptions are values of [error], threaded through the
    [result] monad in the order in which the source evaluates. *)

From Stdlib Require Import Reals Lra Psatz List.
Import ListNotations.
Open Scope R_scope.

(** ** Exceptions and the result monad *)

(** The three [ValueError]s that can escape the module: the two raised by
    [compute_rotation] itself and the shape error numpy raises when the
    orientation does not consist of two triplets. *)
Inductive value_error : Type :=
  | NotPlanarRotation
  | FlippedOrientation
  | ShapeMismatch.

Inductive error : Type :=
  | IndexError
  | ValueError (why : value_error)
  | LinAlgError.

Inductive result (A : Type) : Type :=
  | Ok (a : A)
  | Raise (e : error).

Arguments Ok {A} a.
Arguments Raise {A} e.

Definition bind {A B : Type} (r : result A) (k : A -> result B) : result B :=
  match r with
  | Ok a => k a
  | Raise e => Raise e
  end.

Notation "x <- r ;; k" := (bind r (fun x => k))
  (at level 61, r at next level, right associativity).

Definition raises {A : Type} (r : result A) : Prop :=
  exists e, r = Raise e.

(** ** Python sequences *)

(** [s[i]] for a non-negative literal index [i]. *)
Definition item (s : list R) (i : nat) : result R :=
  match nth_error s i with
  | Some x => Ok x
  | None => Raise IndexError
  end.

(** ** Fixed-shape numpy arrays *)

Record vec3 : Type := Vec3 { c0 : R; c1 : R; c2 : R }.

Record vec4 : Type := Vec4 { h0 : R; h1 : R; h2 : R; h3 : R }.

(** A 3 x 3 array; [aIJ] is the entry [[I, J]]. *)
Record mat3 : Type := Mat3 {
  a00 : R; a01 : R; a02 : R;
  a10 : R; a11 : R; a12 : R;
  a20 : R; a21 : R; a22 : R
}.

(** A 4 x 4 array; [bIJ] is the entry [[I, J]]. *)
Record mat4 : Type := Mat4 {
  b00 : R; b01 : R; b02 : R; b03 : R;
  b10 : R; b11 : R; b12 : R; b13 : R;
  b20 : R; b21 : R; b22 : R; b23 : R;
  b30 : R; b31 : R; b32 : R; b33 : R
}.

(** [np.cross(a, b)] on two 3-vectors. *)
Definition cross (a b : vec3) : vec3 :=
  Vec3 (c1 a * c2 b - c2 a * c1 b)
       (c2 a * c0 b - c0 a * c2 b)
       (c0 a * c1 b - c1 a * c0 b).

(** [np.column_stack([u, v, w])] on three 3-vectors. *)
Definition column_stack3 (u v w : vec3) : mat3 :=
  Mat3 (c0 u) (c0 v) (c0 w)
       (c1 u) (c1 v) (c1 w)
       (c2 u) (c2 v) (c2 w).

(** [m[:, 0] *= k], [m[:, 1] *= k] and [m[:, 2] *= k]. *)
Definition scale_col0 (k : R) (m : mat3) : mat3 :=
  Mat3 (a00 m * k) (a01 m) (a02 m)
       (a10 m * k) (a11 m) (a12 m)
       (a20 m * k) (a21 m) (a22 m).

Definition scale_col1 (k : R) (m : mat3) : mat3 :=
  Mat3 (a00 m) (a01 m * k) (a02 m)
       (a10 m) (a11 m * k) (a12 m)
       (a20 m) (a21 m * k) (a22 m).

Definition scale_col2 (k : R) (m : mat3) : mat3 :=
  Mat3 (a00 m) (a01 m) (a02 m * k)
       (a10 m) (a11 m) (a12 m * k)
       (a20 m) (a21 m) (a22 m * k).

(** [np.dot(m, v)] for a 3 x 3 array and a 3-vector. *)
Definition dot3 (m : mat3) (v : vec3) : vec3 :=
  Vec3 (a00 m * c0 v + a01 m * c1 v + a02 m * c2 v)
       (a10 m * c0 v + a11 m * c1 v + a12 m * c2 v)
       (a20 m * c0 v + a21 m * c1 v + a22 m * c2 v).

(** Unary minus on a 3-vector. *)
Definition neg3 (v : vec3) : vec3 := Vec3 (- c0 v) (- c1 v) (- c2 v).

(** [np.row_stack([np.column_stack([m, t]), [0.0, 0.0, 0.0, 1.0]])]. *)
Definition affine_of (m : mat3) (t : vec3) : mat4 :=
  Mat4 (a00 m) (a01 m) (a02 m) (c0 t)
       (a10 m) (a11 m) (a12 m) (c1 t)
       (a20 m) (a21 m) (a22 m) (c2 t)
       0 0 0 1.

(** [np.dot(affine, p.T)] for a 4 x 4 array and a homogeneous point. *)
Definition dot4 (m : mat4) (p : vec4) : vec4 :=
  Vec4 (b00 m * h0 p + b01 m * h1 p + b02 m * h2 p + b03 m * h3 p)
       (b10 m * h0 p + b11 m * h1 p + b12 m * h2 p + b13 m * h3 p)
       (b20 m * h0 p + b21 m * h1 p + b22 m * h2 p + b23 m * h3 p)
       (b30 m * h0 p + b31 m * h1 p + b32 m * h2 p + b33 m * h3 p).

(** [tuple(v[:3].flatten().tolist())]. *)
Definition first3 (v : vec4) : R * R * R := (h0 v, h1 v, h2 v).

(** A 3-tuple passed where a sequence is expected. *)
Definition seq_of (t : R * R * R) : list R :=
  let '(x, y, z) := t in [x; y; z].

(** Matrix products, used to state that two arrays are mutual inverses. *)
Definition mul3 (m n : mat3) : mat3 :=
  column_stack3
    (dot3 m (Vec3 (a00 n) (a10 n) (a20 n)))
    (dot3 m (Vec3 (a01 n) (a11 n) (a21 n)))
    (dot3 m (Vec3 (a02 n) (a12 n) (a22 n))).

Definition mul4 (m n : mat4) : mat4 :=
  let k0 := dot4 m (Vec4 (b00 n) (b10 n) (b20 n) (b30 n)) in
  let k1 := dot4 m (Vec4 (b01 n) (b11 n) (b21 n) (b31 n)) in
  let k2 := dot4 m (Vec4 (b02 n) (b12 n) (b22 n) (b32 n)) in
  let k3 := dot4 m (Vec4 (b03 n) (b13 n) (b23 n) (b33 n)) in
  Mat4 (h0 k0) (h0 k1) (h0 k2) (h0 k3)
       (h1 k0) (h1 k1) (h1 k2) (h1 k3)
       (h2 k0) (h2 k1) (h2 k2) (h2 k3)
       (h3 k0) (h3 k1) (h3 k2) (h3 k3).

Definition eye3 : mat3 := Mat3 1 0 0  0 1 0  0 0 1.

Definition eye4 : mat4 := Mat4 1 0 0 0  0 1 0 0  0 0 1 0  0 0 0 1.

(** ** numpy.linalg.inv *)

Definition det3 (m : mat3) : R :=
  a00 m * (a11 m * a22 m - a12 m * a21 m)
  - a01 m * (a10 m * a22 m - a12 m * a20 m)
  + a02 m * (a10 m * a21 m - a11 m * a20 m).

(** Transposed cofactor matrix. *)
Definition adjugate3 (m : mat3) : mat3 :=
  Mat3 (a11 m * a22 m - a12 m * a21 m)
       (a02 m * a21 m - a01 m * a22 m)
       (a01 m * a12 m - a02 m * a11 m)
       (a12 m * a20 m - a10 m * a22 m)
       (a00 m * a22 m - a02 m * a20 m)
       (a02 m * a10 m - a00 m * a12 m)
       (a10 m * a21 m - a11 m * a20 m)
       (a01 m * a20 m - a00 m * a21 m)
       (a00 m * a11 m - a01 m * a10 m).

Definition scale3 (k : R) (m : mat3) : mat3 :=
  Mat3 (k * a00 m) (k * a01 m) (k * a02 m)
       (k * a10 m) (k * a11 m) (k * a12 m)
       (k * a20 m) (k * a21 m) (k * a22 m).

(** [np.linalg.inv(m)] on a 3 x 3 array.  numpy solves [m x = I] by LU
    factorisation and raises [LinAlgError("Singular matrix")] when a pivot
    is exactly zero.  In exact arithmetic that happens precisely when the
    determinant vanishes, and otherwise the result is the unique inverse,
    written here by Cramer's rule ([linalg_inv_unique] below shows that
    the choice of formula is immaterial). *)
Definition linalg_inv (m : mat3) : result mat3 :=
  if Req_dec_T (det3 m) 0
  then Raise LinAlgError
  else Ok (scale3 (/ det3 m) (adjugate3 m)).

(** ** create_rotation_matrix *)

(** [np.array(s)] followed by use as a 3-vector.  [image_orientation[:3]]
    and [image_orientation[3:]] have three elements each exactly when the
    orientation has six; for every other length numpy raises a
    [ValueError], in [np.cross] (a vector of a dimension other than 2 or 3)
    or in [np.column_stack] (columns of different lengths). *)
Definition as_vec3 (s : list R) : result vec3 :=
  match s with
  | [x; y; z] => Ok (Vec3 x y z)
  | _ => Raise (ValueError ShapeMismatch)
  end.

Definition create_rotation_matrix (image_orientation : list R) : result mat3 :=
  row_cosines <- as_vec3 (firstn 3 image_orientation) ;;
  column_cosines <- as_vec3 (skipn 3 image_orientation) ;;
  let n := cross row_cosines column_cosines in
  Ok (column_stack3 row_cosines column_cosines n).

(** ** build_transform *)

Definition build_transform
    (image_position image_orientation pixel_spacing : list R) : result mat4 :=
  x_offset <- item image_position 0 ;;
  y_offset <- item image_position 1 ;;
  z_offset <- item image_position 2 ;;
  let translation := Vec3 x_offset y_offset z_offset in
  rotation <- create_rotation_matrix image_orientation ;;
  column_spacing <- item pixel_spacing 0 ;;
  row_spacing <- item pixel_spacing 1 ;;
  let rotation := scale_col0 row_spacing rotation in
  let rotation := scale_col1 column_spacing rotation in
  Ok (affine_of rotation translation).

(** ** build_inverse_transform *)

Definition build_inverse_transform
    (image_position image_orientation pixel_spacing : list R)
    (spacing_between_slices : R) : result mat4 :=
  x_offset <- item image_position 0 ;;
  y_offset <- item image_position 1 ;;
  z_offset <- item image_position 2 ;;
  let translation := Vec3 x_offset y_offset z_offset in
  rotation <- create_rotation_matrix image_orientation ;;
  column_spacing <- item pixel_spacing 0 ;;
  row_spacing <- item pixel_spacing 1 ;;
  let rotation := scale_col0 row_spacing rotation in
  let rotation := scale_col1 column_spacing rotation in
  let rotation := scale_col2 spacing_between_slices rotation in
  inv_rotation <- linalg_inv rotation ;;
  Ok (affine_of inv_rotation (neg3 (dot3 inv_rotation translation))).

(** The default value of [spacing_between_slices]. *)
Definition default_spacing_between_slices : R := 1.

(** ** apply_transform and apply_inverse_transform *)

Definition apply_transform (coordinate : list R) (affine : mat4)
    : result (R * R * R) :=
  column_offset <- item coordinate 0 ;;
  row_offset <- item coordinate 1 ;;
  let pixel_matrix_coordinate := Vec4 column_offset row_offset 0 1 in
  let physical_coordinate := dot4 affine pixel_matrix_coordinate in
  Ok (first3 physical_coordinate).

Definition apply_inverse_transform (coordinate : list R) (affine : mat4)
    : result (R * R * R) :=
  x <- item coordinate 0 ;;
  y <- item coordinate 1 ;;
  z <- item coordinate 2 ;;
  let physical_coordinate := Vec4 x y z 1 in
  let pixel_matrix_coordinate := dot4 affine physical_coordinate in
  Ok (first3 pixel_matrix_coordinate).

(** ** The one-shot wrappers *)

Definition map_pixel_into_coordinate_system
    (coordinate image_position image_orientation pixel_spacing : list R)
    : result (R * R * R) :=
  affine <- build_transform image_position image_orientation pixel_spacing ;;
  apply_transform coordinate affine.

Definition map_coordinate_into_pixel_matrix
    (coordinate image_position image_orientation pixel_spacing : list R)
    (spacing_between_slices : R) : result (R * R * R) :=
  affine <- build_inverse_transform image_position image_orientation
              pixel_spacing spacing_between_slices ;;
  apply_inverse_transform coordinate affine.

(** ** compute_rotation *)

(** The float comparisons [x != y] and [x < y]. *)
Definition neqb (x y : R) : bool := if Req_dec_T x y then false else true.

Definition ltb (x y : R) : bool := if Rlt_dec x y then true else false.

(** The angle in (-PI, PI] of the point [(x, y)], following the case table
    of the C library function [atan2] for arguments without a negative
    zero. *)
Definition principal_angle (y x : R) : R :=
  if Rlt_dec 0 x then atan (y / x)
  else if Rlt_dec x 0 then
    if Rle_dec 0 y then atan (y / x) + PI else atan (y / x) - PI
  else
    if Rlt_dec 0 y then PI / 2
    else if Rlt_dec y 0 then - (PI / 2)
    else 0.

(** A float handed to [np.arctan2]: its value and, for the value zero, the
    sign of the zero ([negative_zero] is read for the value 0 only). *)
Record signed : Type := Signed { value : R; negative_zero : bool }.

(** A number of the orientation.  A zero among the arguments stands for
    the float [0.0]. *)
Definition of_real (x : R) : signed := Signed x false.

(** Unary minus of a float: [-(0.0)] is [-0.0]. *)
Definition fneg (s : signed) : signed :=
  Signed (- value s) (negb (negative_zero s)).

(** [np.arctan2(y, x)] for an [x] that is not a negative zero.  On the
    negative x axis the sign of a zero [y] decides between PI and -PI;
    everywhere else the result is the principal angle. *)
Definition arctan2 (y : signed) (x : R) : R :=
  if Rlt_dec x 0 then
    if Req_dec_T (value y) 0
    then (if negative_zero y then - PI else PI)
    else principal_angle (value y) x
  else principal_angle (value y) x.

(** [np.degrees(x)]. *)
Definition degrees (x : R) : R := x * (180 / PI).

Definition compute_rotation (image_orientation : list R) (in_degrees : bool)
    : result R :=
  row_z <- item image_orientation 2 ;;
  not_planar <-
    (if neqb row_z 0 then Ok true
     else column_z <- item image_orientation 5 ;; Ok (neqb column_z 0)) ;;
  if (not_planar : bool) then Raise (ValueError NotPlanarRotation)
  else
    rotation <- create_rotation_matrix image_orientation ;;
    if ltb (a22 rotation) 0 then Raise (ValueError FlippedOrientation)
    else
      let angle := arctan2 (fneg (of_real (a01 rotation))) (a00 rotation) in
      if in_degrees then Ok (degrees angle) else Ok angle.

(** ** Vocabulary of the statements *)

(** The orientation as the two triplets it consists of. *)
Definition orientation_of (row column : vec3) : list R :=
  [c0 row; c1 row; c2 row; c0 column; c1 column; c2 column].

(** The basis [create_rotation_matrix] builds from two triplets. *)
Definition basis (row column : vec3) : mat3 :=
  column_stack3 row column (cross row column).

(** The 3 x 3 block [build_inverse_transform] hands to [np.linalg.inv]. *)
Definition scaled_basis (row column : vec3) (pixel_spacing0 pixel_spacing1 : R)
    (spacing_between_slices : R) : mat3 :=
  scale_col2 spacing_between_slices
    (scale_col1 pixel_spacing0
       (scale_col0 pixel_spacing1 (basis row column))).

(** Two direction vectors are linearly independent. *)
Definition independent (u v : vec3) : Prop :=
  forall a b : R,
    a * c0 u + b * c0 v = 0 ->
    a * c1 u + b * c1 v = 0 ->
    a * c2 u + b * c2 v = 0 ->
    a = 0 /\ b = 0.

Definition norm2 (v : vec3) : R := c0 v * c0 v + c1 v * c1 v + c2 v * c2 v.

(** The arrays [diag(1, 1, k)] and [diag(1, 1, k, 1)]. *)
Definition diag3 (k : R) : mat3 := Mat3 1 0 0  0 1 0  0 0 k.

Definition diag_slice (k : R) : mat4 :=
  Mat4 1 0 0 0  0 1 0 0  0 0 k 0  0 0 0 1.

Definition add3 (u v : vec3) : vec3 :=
  Vec3 (c0 u + c0 v) (c1 u + c1 v) (c2 u + c2 v).

Definition zero3 : vec3 := Vec3 0 0 0.

(** ** Vocabulary of the further properties *)

(** Inner product of two 3-vectors. *)
Definition dotp (u v : vec3) : R := c0 u * c0 v + c1 u * c1 v + c2 u * c2 v.

(** Unit length and mutually orthogonal direction cosines. *)
Definition orthonormal (row column : vec3) : Prop :=
  dotp row row = 1 /\ dotp column column = 1 /\ dotp row column = 0.

Definition transpose3 (m : mat3) : mat3 :=
  Mat3 (a00 m) (a10 m) (a20 m)
       (a01 m) (a11 m) (a21 m)
       (a02 m) (a12 m) (a22 m).

(** The array [diag(a, b, c)]. *)
Definition diagm (a b c : R) : mat3 := Mat3 a 0 0  0 b 0  0 0 c.

Definition sub3 (u v : vec3) : vec3 :=
  Vec3 (c0 u - c0 v) (c1 u - c1 v) (c2 u - c2 v).

Definition scale_vec (k : R) (v : vec3) : vec3 :=
  Vec3 (k * c0 v) (k * c1 v) (k * c2 v).

(** A 3-tuple read as a vector. *)
Definition vec_of (t : R * R * R) : vec3 :=
  let '(x, y, z) := t in Vec3 x y z.

(** A vector read as a 3-tuple. *)
Definition tuple_of (v : vec3) : R * R * R := (c0 v, c1 v, c2 v).

(** The point [position + column * pixel_spacing1 * row_cosines
    + row * pixel_spacing0 * column_cosines] of the image plane. *)
Definition plane_point (position row_cosines column_cosines : vec3)
    (pixel_spacing0 pixel_spacing1 column row : R) : vec3 :=
  add3 position
    (add3 (scale_vec (column * pixel_spacing1) row_cosines)
          (scale_vec (row * pixel_spacing0) column_cosines)).

(** * Properties *)

(** ** Reasoning support *)

(** [k * p + l * q] rewritten with the equations [E : p = _] and
    [F : q = _]. *)
Ltac combine E F k l :=
  match type of E with
  | ?p = _ =>
    match type of F with
    | ?q = _ => transitivity (k * p + l * q); [ring | rewrite E, F; ring]
    end
  end.

Lemma mat3_eq (m n : mat3) :
  a00 m = a00 n -> a01 m = a01 n -> a02 m = a02 n ->
  a10 m = a10 n -> a11 m = a11 n -> a12 m = a12 n ->
  a20 m = a20 n -> a21 m = a21 n -> a22 m = a22 n ->
  m = n.
Proof.
  destruct m, n; simpl; intros; subst; reflexivity.
Qed.

Lemma mat4_eq (m n : mat4) :
  b00 m = b00 n -> b01 m = b01 n -> b02 m = b02 n -> b03 m = b03 n ->
  b10 m = b10 n -> b11 m = b11 n -> b12 m = b12 n -> b13 m = b13 n ->
  b20 m = b20 n -> b21 m = b21 n -> b22 m = b22 n -> b23 m = b23 n ->
  b30 m = b30 n -> b31 m = b31 n -> b32 m = b32 n -> b33 m = b33 n ->
  m = n.
Proof.
  destruct m, n; simpl; intros; subst; reflexivity.
Qed.

Lemma triple_eq (x y z x' y' z' : R) :
  x = x' -> y = y' -> z = z' -> (x, y, z) = (x', y', z').
Proof. intros; subst; reflexivity. Qed.

Lemma bind_Ok {A B : Type} (r : result A) (k : A -> result B) (b : B) :
  bind r k = Ok b -> exists a, r = Ok a /\ k a = Ok b.
Proof.
  destruct r as [a | e]; simpl; intro H.
  - exists a; split; [reflexivity | exact H].
  - discriminate H.
Qed.

Lemma item_Ok_0 (s : list R) (x : R) :
  item s 0 = Ok x -> exists t, s = x :: t.
Proof.
  destruct s as [| y t]; unfold item; simpl; intro H; inversion H.
  exists t; reflexivity.
Qed.

Lemma item_cons (x : R) (s : list R) (i : nat) :
  item (x :: s) (S i) = item s i.
Proof. reflexivity. Qed.

Lemma neqb_true (x y : R) : neqb x y = true <-> x <> y.
Proof.
  unfold neqb; destruct (Req_dec_T x y); split; intro H;
    try reflexivity; try discriminate; try assumption.
  contradiction.
Qed.

Lemma neqb_false (x y : R) : neqb x y = false <-> x = y.
Proof.
  unfold neqb; destruct (Req_dec_T x y); split; intro H;
    try reflexivity; try discriminate; try assumption.
  contradiction.
Qed.

Lemma ltb_true (x y : R) : ltb x y = true <-> x < y.
Proof.
  unfold ltb; destruct (Rlt_dec x y); split; intro H;
    try reflexivity; try discriminate; try assumption.
  contradiction.
Qed.

Lemma ltb_false (x y : R) : ltb x y = false <-> y <= x.
Proof.
  unfold ltb; destruct (Rlt_dec x y); split; intro H;
    try reflexivity; try discriminate; try lra.
Qed.

(** ** The model of numpy.linalg.inv is the matrix inverse *)

Lemma det3_adjugate_r (m : mat3) :
  mul3 m (adjugate3 m) = scale3 (det3 m) eye3.
Proof.
  destruct m; apply mat3_eq; unfold det3; simpl; ring.
Qed.

Lemma det3_adjugate_l (m : mat3) :
  mul3 (adjugate3 m) m = scale3 (det3 m) eye3.
Proof.
  destruct m; apply mat3_eq; unfold det3; simpl; ring.
Qed.

Lemma det3_mul (m n : mat3) : det3 (mul3 m n) = det3 m * det3 n.
Proof.
  destruct m, n; unfold det3; simpl; ring.
Qed.

Lemma det3_eye : det3 eye3 = 1.
Proof. unfold det3; simpl; ring. Qed.

Lemma linalg_inv_singular (m : mat3) :
  det3 m = 0 -> linalg_inv m = Raise LinAlgError.
Proof.
  intro H; unfold linalg_inv.
  destruct (Req_dec_T (det3 m) 0) as [_ | N]; [reflexivity | contradiction].
Qed.

Lemma linalg_inv_regular (m : mat3) :
  det3 m <> 0 -> linalg_inv m = Ok (scale3 (/ det3 m) (adjugate3 m)).
Proof.
  intro H; unfold linalg_inv.
  destruct (Req_dec_T (det3 m) 0) as [E | _]; [contradiction | reflexivity].
Qed.

Lemma linalg_inv_Ok (m i : mat3) :
  linalg_inv m = Ok i ->
  det3 m <> 0 /\ mul3 m i = eye3 /\ mul3 i m = eye3.
Proof.
  unfold linalg_inv.
  destruct (Req_dec_T (det3 m) 0) as [E | N]; intro H; inversion H; subst.
  split; [exact N |].
  split; destruct m; apply mat3_eq; unfold det3 in *; simpl in *;
    field; exact N.
Qed.

Lemma linalg_inv_Raise (m : mat3) (e : error) :
  linalg_inv m = Raise e -> det3 m = 0 /\ e = LinAlgError.
Proof.
  unfold linalg_inv.
  destruct (Req_dec_T (det3 m) 0) as [E | N]; intro H; inversion H.
  split; [exact E | reflexivity].
Qed.

Lemma mul3_assoc (m n p : mat3) : mul3 (mul3 m n) p = mul3 m (mul3 n p).
Proof.
  destruct m, n, p; apply mat3_eq; simpl; ring.
Qed.

Lemma mul3_eye_l (m : mat3) : mul3 eye3 m = m.
Proof. destruct m; apply mat3_eq; simpl; ring. Qed.

Lemma mul3_eye_r (m : mat3) : mul3 m eye3 = m.
Proof. destruct m; apply mat3_eq; simpl; ring. Qed.

(** Whatever algorithm computes it, a right inverse of [m] is what
    [linalg_inv] returns. *)
Lemma linalg_inv_unique (m i : mat3) :
  mul3 m i = eye3 -> linalg_inv m = Ok i.
Proof.
  intro H.
  assert (N : det3 m <> 0).
  { intro E. pose proof (det3_mul m i) as D.
    rewrite H, det3_eye, E in D. lra. }
  destruct (linalg_inv m) as [j | e] eqn:L.
  - apply linalg_inv_Ok in L. destruct L as [_ [_ Hl]].
    f_equal.
    rewrite <- (mul3_eye_r j), <- H, <- mul3_assoc, Hl, mul3_eye_l.
    reflexivity.
  - apply linalg_inv_Raise in L. destruct L as [E _]. contradiction.
Qed.

(** ** The basis and its determinant *)

Lemma create_rotation_matrix_orientation (row column : vec3) :
  create_rotation_matrix (orientation_of row column) = Ok (basis row column).
Proof.
  destruct row, column; reflexivity.
Qed.

Lemma det3_basis (row column : vec3) :
  det3 (basis row column) = norm2 (cross row column).
Proof.
  destruct row, column; unfold det3, norm2; simpl; ring.
Qed.

Lemma det3_scaled_basis (row column : vec3) (s0 s1 ss : R) :
  det3 (scaled_basis row column s0 s1 ss)
  = s1 * s0 * ss * norm2 (cross row column).
Proof.
  destruct row, column; unfold det3, norm2; simpl; ring.
Qed.

Lemma norm2_zero (v : vec3) :
  norm2 v = 0 <-> c0 v = 0 /\ c1 v = 0 /\ c2 v = 0.
Proof.
  destruct v as [x y z]; unfold norm2; simpl; split.
  - intro H. repeat split; nra.
  - intros [-> [-> ->]]. ring.
Qed.

Lemma independent_cross (u v : vec3) :
  independent u v -> norm2 (cross u v) <> 0.
Proof.
  intros I E. apply norm2_zero in E.
  destruct u as [ux uy uz], v as [vx vy vz]; unfold independent in I;
    simpl in *.
  destruct E as [Ex [Ey Ez]].
  destruct (Req_dec_T ux 0) as [X | X].
  - destruct (Req_dec_T uy 0) as [Y | Y].
    + destruct (Req_dec_T uz 0) as [Z | Z].
      * destruct (I 1 0) as [H _]; subst; lra.
      * destruct (I vz (- uz)) as [_ H]; nra.
    + destruct (I vy (- uy)) as [_ H]; nra.
  - destruct (I vx (- ux)) as [_ H]; nra.
Qed.

Lemma cross_independent (u v : vec3) :
  norm2 (cross u v) <> 0 -> independent u v.
Proof.
  intros N a b H0 H1 H2.
  destruct u as [ux uy uz], v as [vx vy vz]; unfold norm2 in N; simpl in *.
  destruct (Req_dec_T a 0) as [A | A].
  - split; [exact A |]. subst a.
    destruct (Req_dec_T b 0) as [B | B]; [exact B |].
    exfalso. apply N.
    assert (vx = 0) by nra. assert (vy = 0) by nra. assert (vz = 0) by nra.
    subst. ring.
  - exfalso. apply N.
    assert (Ex : ux = - (b / a) * vx) by (field_simplify_eq; [lra | exact A]).
    assert (Ey : uy = - (b / a) * vy) by (field_simplify_eq; [lra | exact A]).
    assert (Ez : uz = - (b / a) * vz) by (field_simplify_eq; [lra | exact A]).
    rewrite Ex, Ey, Ez. ring.
Qed.

Lemma scaled_basis_regular (row column : vec3) (s0 s1 ss : R) :
  s0 <> 0 -> s1 <> 0 -> ss <> 0 -> independent row column ->
  det3 (scaled_basis row column s0 s1 ss) <> 0.
Proof.
  intros H0 H1 Hs I. rewrite det3_scaled_basis.
  apply independent_cross in I.
  repeat apply Rmult_integral_contrapositive_currified; assumption.
Qed.

Lemma scaled_basis_singular (row column : vec3) (s0 s1 ss : R) :
  s0 = 0 \/ s1 = 0 \/ ss = 0 \/ ~ independent row column ->
  det3 (scaled_basis row column s0 s1 ss) = 0.
Proof.
  rewrite det3_scaled_basis.
  intros [H | [H | [H | H]]]; try (rewrite H; ring).
  destruct (Req_dec_T (norm2 (cross row column)) 0) as [E | N].
  - rewrite E; ring.
  - exfalso. apply H. apply cross_independent. exact N.
Qed.

(** ** The builders on well-shaped arguments *)

Lemma build_transform_shape (x y z : R) (row column : vec3) (s0 s1 : R) :
  build_transform [x; y; z] (orientation_of row column) [s0; s1]
  = Ok (affine_of (scale_col1 s0 (scale_col0 s1 (basis row column)))
                  (Vec3 x y z)).
Proof.
  destruct row, column; reflexivity.
Qed.

Lemma build_inverse_transform_shape
    (x y z : R) (row column : vec3) (s0 s1 ss : R) :
  build_inverse_transform [x; y; z] (orientation_of row column) [s0; s1] ss
  = inv_rotation <- linalg_inv (scaled_basis row column s0 s1 ss) ;;
    Ok (affine_of inv_rotation (neg3 (dot3 inv_rotation (Vec3 x y z)))).
Proof.
  destruct row, column; reflexivity.
Qed.

Lemma as_vec3_Ok (s : list R) (v : vec3) :
  as_vec3 s = Ok v -> s = [c0 v; c1 v; c2 v].
Proof.
  destruct s as [| x [| y [| z [| w t]]]]; simpl; intro H; inversion H.
  reflexivity.
Qed.

Lemma create_rotation_matrix_Ok (o : list R) (m : mat3) :
  create_rotation_matrix o = Ok m ->
  exists row column, o = orientation_of row column /\ m = basis row column.
Proof.
  unfold create_rotation_matrix. intro H.
  apply bind_Ok in H. destruct H as [row [Hr H]].
  apply bind_Ok in H. destruct H as [column [Hc H]].
  inversion H; subst. exists row, column. split; [| reflexivity].
  apply as_vec3_Ok in Hr. apply as_vec3_Ok in Hc.
  rewrite <- (firstn_skipn 3 o), Hr, Hc. reflexivity.
Qed.

Lemma build_transform_prefix (x y z : R) (pos' : list R) (row column : vec3)
    (s0 s1 : R) (sp' : list R) :
  build_transform (x :: y :: z :: pos') (orientation_of row column)
                  (s0 :: s1 :: sp')
  = Ok (affine_of (scale_col1 s0 (scale_col0 s1 (basis row column)))
                  (Vec3 x y z)).
Proof.
  destruct row, column; reflexivity.
Qed.

(** What a successful call of [build_inverse_transform] tells about its
    arguments and its result. *)
Lemma build_inverse_transform_Ok (pos ori sp : list R) (ss : R) (g : mat4) :
  build_inverse_transform pos ori sp ss = Ok g ->
  exists x y z pos' row column s0 s1 sp' i,
    pos = x :: y :: z :: pos' /\
    ori = orientation_of row column /\
    sp = s0 :: s1 :: sp' /\
    linalg_inv (scaled_basis row column s0 s1 ss) = Ok i /\
    g = affine_of i (neg3 (dot3 i (Vec3 x y z))).
Proof.
  unfold build_inverse_transform. intro H.
  apply bind_Ok in H. destruct H as [x [Hx H]].
  apply bind_Ok in H. destruct H as [y [Hy H]].
  apply bind_Ok in H. destruct H as [z [Hz H]].
  apply bind_Ok in H. destruct H as [m [Hm H]].
  apply bind_Ok in H. destruct H as [s0 [H0 H]].
  apply bind_Ok in H. destruct H as [s1 [H1 H]].
  apply bind_Ok in H. destruct H as [i [Hi H]].
  apply item_Ok_0 in Hx. destruct Hx as [p1 ->]. rewrite item_cons in Hy, Hz.
  apply item_Ok_0 in Hy. destruct Hy as [p2 ->]. rewrite item_cons in Hz.
  apply item_Ok_0 in Hz. destruct Hz as [p3 ->].
  apply item_Ok_0 in H0. destruct H0 as [q1 ->]. rewrite item_cons in H1.
  apply item_Ok_0 in H1. destruct H1 as [q2 ->].
  apply create_rotation_matrix_Ok in Hm. destruct Hm as [row [column [-> ->]]].
  inversion H; subst.
  exists x, y, z, p3, row, column, s0, s1, q2, i.
  repeat split; try reflexivity. exact Hi.
Qed.

(** Evaluating [build_inverse_transform] once an inverse of the scaled
    basis is known. *)
Lemma build_inverse_transform_by_inverse
    (x y z : R) (row column : vec3) (s0 s1 ss : R) (i : mat3) :
  mul3 (scaled_basis row column s0 s1 ss) i = eye3 ->
  build_inverse_transform [x; y; z] (orientation_of row column) [s0; s1] ss
  = Ok (affine_of i (neg3 (dot3 i (Vec3 x y z)))).
Proof.
  intro H. rewrite build_inverse_transform_shape.
  rewrite (linalg_inv_unique _ _ H). reflexivity.
Qed.

(** A matrix is returned only for a regular block: nonzero spacings and
    linearly independent direction cosines. *)
Lemma build_inverse_transform_Ok_regular
    (pos ori sp : list R) (ss : R) (g : mat4) :
  build_inverse_transform pos ori sp ss = Ok g ->
  exists row column s0 s1 sp',
    ori = orientation_of row column /\ sp = s0 :: s1 :: sp' /\
    s0 <> 0 /\ s1 <> 0 /\ ss <> 0 /\ independent row column.
Proof.
  intro H. apply build_inverse_transform_Ok in H.
  destruct H as (x & y & z & pos' & u & v & s0 & s1 & sp' & i
                 & _ & -> & -> & Hi & _).
  apply linalg_inv_Ok in Hi. destruct Hi as [N _].
  rewrite det3_scaled_basis in N.
  exists u, v, s0, s1, sp'.
  split; [reflexivity |]. split; [reflexivity |].
  split; [| split; [| split]].
  - intro E. apply N. rewrite E. ring.
  - intro E. apply N. rewrite E. ring.
  - intro E. apply N. rewrite E. ring.
  - apply cross_independent. intro E. apply N. rewrite E. ring.
Qed.

(** ** Round trip *)

(** C1.  Whenever [build_inverse_transform] returns a matrix for a
    position, orientation, pixel spacing and slice spacing, then
    [build_transform] returns a matrix for the same position, orientation
    and pixel spacing, and mapping any pixel coordinate (column, row)
    forward and the resulting reference point back gives
    (column, row, 0).  The pixel spacings are then necessarily nonzero.
    Over the reals the equality is exact. *)
Theorem round_trip_pixel_reference_pixel
    (position orientation spacing : list R) (slice_spacing : R)
    (inverse : mat4) (column row : R) :
  build_inverse_transform position orientation spacing slice_spacing
    = Ok inverse ->
  exists forward point,
    build_transform position orientation spacing = Ok forward /\
    apply_transform [column; row] forward = Ok point /\
    apply_inverse_transform (seq_of point) inverse = Ok (column, row, 0).
Proof.
  intro H. apply build_inverse_transform_Ok in H.
  destruct H as (x & y & z & pos' & u & v & s0 & s1 & sp' & i
                 & -> & -> & -> & Hi & ->).
  rewrite build_transform_prefix.
  eexists. eexists. split; [reflexivity |]. split; [reflexivity |].
  apply linalg_inv_Ok in Hi. destruct Hi as [_ [_ Hl]].
  pose proof (f_equal a00 Hl) as E00. pose proof (f_equal a01 Hl) as E01.
  pose proof (f_equal a10 Hl) as E10. pose proof (f_equal a11 Hl) as E11.
  pose proof (f_equal a20 Hl) as E20. pose proof (f_equal a21 Hl) as E21.
  destruct i, u, v. simpl in *.
  unfold apply_inverse_transform, first3; simpl. f_equal.
  apply triple_eq.
  - combine E00 E01 column row.
  - combine E10 E11 column row.
  - combine E20 E21 column row.
Qed.

(** The inverse transform of the scenario of C3, with slice spacing 4. *)
Lemma scenario_inverse :
  build_inverse_transform [10; 20; 30] [1; 0; 0; 0; 1; 0] [2; 3] 4
  = Ok (Mat4 (/ 3) 0 0 (- (10 / 3))
             0 (/ 2) 0 (- 10)
             0 0 (/ 4) (- (30 / 4))
             0 0 0 1).
Proof.
  change [1; 0; 0; 0; 1; 0] with (orientation_of (Vec3 1 0 0) (Vec3 0 1 0)).
  rewrite (build_inverse_transform_by_inverse _ _ _ _ _ _ _ _
             (Mat3 (/ 3) 0 0  0 (/ 2) 0  0 0 (/ 4))).
  - f_equal. apply mat4_eq; simpl; field.
  - apply mat3_eq; simpl; field.
Qed.

Lemma round_trip_pixel_reference_pixel_witness :
  build_inverse_transform [10; 20; 30] [1; 0; 0; 0; 1; 0] [2; 3] 4
    = Ok (Mat4 (/ 3) 0 0 (- (10 / 3))
               0 (/ 2) 0 (- 10)
               0 0 (/ 4) (- (30 / 4))
               0 0 0 1)
  /\ exists forward point,
       build_transform [10; 20; 30] [1; 0; 0; 0; 1; 0] [2; 3] = Ok forward /\
       apply_transform [5; 7] forward = Ok point /\
       apply_inverse_transform (seq_of point)
         (Mat4 (/ 3) 0 0 (- (10 / 3))
               0 (/ 2) 0 (- 10)
               0 0 (/ 4) (- (30 / 4))
               0 0 0 1)
       = Ok (5, 7, 0).
Proof.
  split.
  - exact scenario_inverse.
  - apply (round_trip_pixel_reference_pixel
             [10; 20; 30] [1; 0; 0; 0; 1; 0] [2; 3] 4).
    exact scenario_inverse.
Defined.

(** ** Products of affine matrices *)

Lemma mul4_affine (m n : mat3) (t u : vec3) :
  mul4 (affine_of m t) (affine_of n u)
  = affine_of (mul3 m n) (add3 (dot3 m u) t).
Proof.
  destruct m, n, t, u; apply mat4_eq; simpl; ring.
Qed.

Lemma affine_of_diag3 (k : R) : affine_of (diag3 k) zero3 = diag_slice k.
Proof. reflexivity. Qed.

Lemma diag_slice_1 : diag_slice 1 = eye4.
Proof. reflexivity. Qed.

Lemma dot3_mul3 (m n : mat3) (v : vec3) :
  dot3 (mul3 m n) v = dot3 m (dot3 n v).
Proof.
  destruct m, n, v; unfold dot3; simpl; f_equal; ring.
Qed.

Lemma dot3_neg3 (m : mat3) (v : vec3) : dot3 m (neg3 v) = neg3 (dot3 m v).
Proof.
  destruct m, v; unfold dot3, neg3; simpl; f_equal; ring.
Qed.

Lemma dot3_eye (v : vec3) : dot3 eye3 v = v.
Proof.
  destruct v; unfold dot3; simpl; f_equal; ring.
Qed.

Lemma add3_neg3_r (v : vec3) : add3 v (neg3 v) = zero3.
Proof.
  destruct v; unfold add3, neg3, zero3; simpl; f_equal; ring.
Qed.

Lemma add3_neg3_l (v : vec3) : add3 (neg3 v) v = zero3.
Proof.
  destruct v; unfold add3, neg3, zero3; simpl; f_equal; ring.
Qed.

(** The linear block of the forward transform is the block that the
    inverse builder inverts, with the slice scaling taken out again. *)
Lemma forward_block_factor (row column : vec3) (s0 s1 ss : R) :
  ss <> 0 ->
  scale_col1 s0 (scale_col0 s1 (basis row column))
  = mul3 (scaled_basis row column s0 s1 ss) (diag3 (/ ss)).
Proof.
  intro H. destruct row, column; apply mat3_eq; simpl; field; exact H.
Qed.

Lemma forward_block_unit_slice (row column : vec3) (s0 s1 : R) :
  scale_col1 s0 (scale_col0 s1 (basis row column))
  = scaled_basis row column s0 s1 1.
Proof.
  destruct row, column; apply mat3_eq; simpl; ring.
Qed.

(** The product inverse * forward for any slice spacing for which the
    inverse exists. *)
Lemma inverse_times_forward
    (x y z : R) (row column : vec3) (s0 s1 ss : R) (i : mat3) :
  ss <> 0 ->
  mul3 i (scaled_basis row column s0 s1 ss) = eye3 ->
  mul4 (affine_of i (neg3 (dot3 i (Vec3 x y z))))
       (affine_of (scale_col1 s0 (scale_col0 s1 (basis row column)))
                  (Vec3 x y z))
  = diag_slice (/ ss).
Proof.
  intros Hs Hl.
  rewrite mul4_affine, (forward_block_factor _ _ _ _ ss Hs).
  rewrite <- mul3_assoc, Hl, mul3_eye_l, add3_neg3_r.
  apply affine_of_diag3.
Qed.

(** The product forward * inverse for slice spacing 1. *)
Lemma forward_times_inverse
    (x y z : R) (row column : vec3) (s0 s1 : R) (i : mat3) :
  mul3 (scaled_basis row column s0 s1 1) i = eye3 ->
  mul4 (affine_of (scale_col1 s0 (scale_col0 s1 (basis row column)))
                  (Vec3 x y z))
       (affine_of i (neg3 (dot3 i (Vec3 x y z))))
  = eye4.
Proof.
  intro Hr.
  rewrite mul4_affine, forward_block_unit_slice, Hr.
  rewrite dot3_neg3, <- dot3_mul3, Hr, dot3_eye, add3_neg3_l.
  reflexivity.
Qed.

Lemma independent_xy : independent (Vec3 1 0 0) (Vec3 0 1 0).
Proof.
  intros a b H0 H1 _. simpl in *. lra.
Qed.

(** ** Forward and inverse matrices as mutual inverses *)

(** C2, as stated, fails: in the scenario of C3 with slice spacing 4 both
    spacings are nonzero and the direction vectors are independent, both
    builders return a matrix, and neither product is the identity. *)
Lemma forward_inverse_product_not_identity :
  2 <> 0 /\ 3 <> 0 /\ independent (Vec3 1 0 0) (Vec3 0 1 0) /\
  exists forward inverse,
    build_transform [10; 20; 30] [1; 0; 0; 0; 1; 0] [2; 3] = Ok forward /\
    build_inverse_transform [10; 20; 30] [1; 0; 0; 0; 1; 0] [2; 3] 4
      = Ok inverse /\
    mul4 inverse forward <> eye4 /\
    mul4 forward inverse <> eye4.
Proof.
  split; [lra |]. split; [lra |]. split.
  - exact independent_xy.
  - eexists. eexists.
    split; [reflexivity |]. split; [exact scenario_inverse |].
    split; intro H; apply (f_equal b22) in H; simpl in H; lra.
Qed.

(** C2, amended.  For nonzero pixel spacings, linearly independent row and
    column cosines and a nonzero slice spacing, both builders return a
    matrix and inverse * forward = diag(1, 1, 1 / slice_spacing, 1); when
    the slice spacing is 1, its default value, forward and inverse are
    mutual inverses: both products are the 4 x 4 identity. *)
Theorem forward_inverse_mutual_inverses
    (x y z r0 r1 r2 k0 k1 k2 s0 s1 slice_spacing : R) :
  s0 <> 0 -> s1 <> 0 -> slice_spacing <> 0 ->
  independent (Vec3 r0 r1 r2) (Vec3 k0 k1 k2) ->
  exists forward inverse,
    build_transform [x; y; z] [r0; r1; r2; k0; k1; k2] [s0; s1]
      = Ok forward /\
    build_inverse_transform [x; y; z] [r0; r1; r2; k0; k1; k2] [s0; s1]
      slice_spacing = Ok inverse /\
    mul4 inverse forward = diag_slice (/ slice_spacing) /\
    (slice_spacing = default_spacing_between_slices ->
     mul4 forward inverse = eye4 /\ mul4 inverse forward = eye4).
Proof.
  intros H0 H1 Hs I.
  change [r0; r1; r2; k0; k1; k2]
    with (orientation_of (Vec3 r0 r1 r2) (Vec3 k0 k1 k2)).
  set (row := Vec3 r0 r1 r2) in *. set (column := Vec3 k0 k1 k2) in *.
  pose proof (scaled_basis_regular row column s0 s1 slice_spacing H0 H1 Hs I)
    as N.
  pose proof (linalg_inv_regular _ N) as L.
  destruct (linalg_inv_Ok _ _ L) as [_ [Hr Hl]].
  rewrite build_transform_shape, build_inverse_transform_shape, L.
  eexists. eexists. split; [reflexivity |]. split; [reflexivity |].
  split.
  - apply inverse_times_forward; assumption.
  - unfold default_spacing_between_slices. intro E. split.
    + rewrite E in Hr |- *. apply forward_times_inverse. exact Hr.
    + rewrite (inverse_times_forward _ _ _ _ _ _ _ slice_spacing)
        by assumption.
      rewrite E, Rinv_1. reflexivity.
Qed.

Lemma forward_inverse_mutual_inverses_witness :
  2 <> 0 /\ 3 <> 0 /\ 1 <> 0 /\
  independent (Vec3 1 0 0) (Vec3 0 1 0) /\
  exists forward inverse,
    build_transform [10; 20; 30] [1; 0; 0; 0; 1; 0] [2; 3] = Ok forward /\
    build_inverse_transform [10; 20; 30] [1; 0; 0; 0; 1; 0] [2; 3] 1
      = Ok inverse /\
    mul4 forward inverse = eye4 /\ mul4 inverse forward = eye4.
Proof.
  assert (H2 : 2 <> 0) by lra.
  assert (H3 : 3 <> 0) by lra.
  assert (H1 : 1 <> 0) by lra.
  split; [exact H2 |]. split; [exact H3 |]. split; [exact H1 |].
  split; [exact independent_xy |].
  destruct (forward_inverse_mutual_inverses
              10 20 30 1 0 0 0 1 0 2 3 1 H2 H3 H1 independent_xy)
    as (forward & inverse & HF & HG & _ & HI).
  exists forward, inverse.
  split; [exact HF |]. split; [exact HG |].
  exact (HI eq_refl).
Defined.

(** ** Forward mapping *)

(** C3.  With position (10, 20, 30), orientation (1, 0, 0, 0, 1, 0) and
    pixel spacing (2, 3), the forward transform maps pixel (1, 1) to
    (13, 22, 30); in general it maps (column, row) to
    (10 + 3 * column, 20 + 2 * row, 30): the column index is scaled by
    pixel_spacing[1] along X and the row index by pixel_spacing[0]
    along Y. *)
Theorem scenario_forward_mapping :
  exists forward,
    build_transform [10; 20; 30] [1; 0; 0; 0; 1; 0] [2; 3] = Ok forward /\
    apply_transform [1; 1] forward = Ok (13, 22, 30) /\
    forall column row,
      apply_transform [column; row] forward
      = Ok (10 + 3 * column, 20 + 2 * row, 30).
Proof.
  eexists. split; [reflexivity |].
  split; [| intros column row];
    unfold apply_transform, first3; simpl; f_equal;
    apply triple_eq; ring.
Qed.

(** C6.  For every position, orientation and pixel spacing,
    [build_transform] returns a matrix, and applying it to the pixel
    coordinate (0, 0) returns the position. *)
Theorem forward_maps_origin_to_position
    (x y z r0 r1 r2 k0 k1 k2 s0 s1 : R) :
  exists forward,
    build_transform [x; y; z] [r0; r1; r2; k0; k1; k2] [s0; s1]
      = Ok forward /\
    apply_transform [0; 0] forward = Ok (x, y, z).
Proof.
  eexists. split; [reflexivity |].
  unfold apply_transform, first3; simpl; f_equal.
  apply triple_eq; ring.
Qed.

(** ** Inverse mapping *)

(** In exact arithmetic the inverse matrix sends the position it was built
    from to (0, 0, 0): the translation column is minus the product of the
    linear block and the position.  In binary64 the two products are
    rounded separately, inside [np.dot], so that the source can return a
    slice coordinate that is a rounding error away from zero; that is
    outside this model. *)
Theorem inverse_maps_position_to_origin
    (position orientation spacing : list R) (slice_spacing : R)
    (inverse : mat4) :
  build_inverse_transform position orientation spacing slice_spacing
    = Ok inverse ->
  apply_inverse_transform position inverse = Ok (0, 0, 0).
Proof.
  intro H. apply build_inverse_transform_Ok in H.
  destruct H as (x & y & z & pos' & u & v & s0 & s1 & sp' & i
                 & -> & _ & _ & _ & ->).
  destruct i. unfold apply_inverse_transform, first3; simpl. f_equal.
  apply triple_eq; ring.
Qed.

Lemma inverse_maps_position_to_origin_witness :
  build_inverse_transform [10; 20; 30] [1; 0; 0; 0; 1; 0] [2; 3] 4
    = Ok (Mat4 (/ 3) 0 0 (- (10 / 3))
               0 (/ 2) 0 (- 10)
               0 0 (/ 4) (- (30 / 4))
               0 0 0 1)
  /\ apply_inverse_transform [10; 20; 30]
       (Mat4 (/ 3) 0 0 (- (10 / 3))
             0 (/ 2) 0 (- 10)
             0 0 (/ 4) (- (30 / 4))
             0 0 0 1)
     = Ok (0, 0, 0).
Proof.
  split.
  - exact scenario_inverse.
  - apply (inverse_maps_position_to_origin
             [10; 20; 30] [1; 0; 0; 0; 1; 0] [2; 3] 4).
    exact scenario_inverse.
Defined.

(** ** Singular inverse *)

(** On well-shaped arguments the inverse builder returns a matrix exactly
    when the scaled basis is regular. *)
Lemma build_inverse_transform_regular
    (x y z : R) (row column : vec3) (s0 s1 ss : R) :
  det3 (scaled_basis row column s0 s1 ss) <> 0 ->
  exists inverse,
    build_inverse_transform [x; y; z] (orientation_of row column) [s0; s1] ss
    = Ok inverse.
Proof.
  intro N. rewrite build_inverse_transform_shape, (linalg_inv_regular _ N).
  eexists. reflexivity.
Qed.

(** C5.  When a pixel spacing or the slice spacing is zero, when the row
    and column cosines are linearly dependent, or in general when the
    determinant of the scaled 3 x 3 block vanishes,
    [build_inverse_transform] raises the singular-matrix error of
    [np.linalg.inv] and returns no matrix. *)
Theorem build_inverse_transform_singular
    (x y z r0 r1 r2 k0 k1 k2 s0 s1 slice_spacing : R) :
  s0 = 0 \/ s1 = 0 \/ slice_spacing = 0 \/
  ~ independent (Vec3 r0 r1 r2) (Vec3 k0 k1 k2) \/
  det3 (scaled_basis (Vec3 r0 r1 r2) (Vec3 k0 k1 k2) s0 s1 slice_spacing) = 0 ->
  build_inverse_transform [x; y; z] [r0; r1; r2; k0; k1; k2] [s0; s1]
    slice_spacing
  = Raise LinAlgError.
Proof.
  intro H.
  change [r0; r1; r2; k0; k1; k2]
    with (orientation_of (Vec3 r0 r1 r2) (Vec3 k0 k1 k2)).
  rewrite build_inverse_transform_shape, linalg_inv_singular; [reflexivity |].
  destruct H as [H | [H | [H | [H | H]]]]; try exact H;
    apply scaled_basis_singular; tauto.
Qed.

Lemma build_inverse_transform_singular_witness :
  (0 = 0 \/ 1 = 0 \/ 1 = 0 \/
   ~ independent (Vec3 1 0 0) (Vec3 0 1 0) \/
   det3 (scaled_basis (Vec3 1 0 0) (Vec3 0 1 0) 0 1 1) = 0)
  /\ build_inverse_transform [10; 20; 30] [1; 0; 0; 0; 1; 0] [0; 1] 1
     = Raise LinAlgError.
Proof.
  assert (H : 0 = 0 \/ 1 = 0 \/ 1 = 0 \/
              ~ independent (Vec3 1 0 0) (Vec3 0 1 0) \/
              det3 (scaled_basis (Vec3 1 0 0) (Vec3 0 1 0) 0 1 1) = 0)
    by (left; reflexivity).
  split; [exact H |].
  exact (build_inverse_transform_singular 10 20 30 1 0 0 0 1 0 0 1 1 H).
Defined.

(** ** Padding of the point *)

(** C9, as stated, fails: the third component of a 3-vector handed to the
    pixel-to-reference apply is not preserved; it has no effect on the
    result. *)
Lemma apply_transform_drops_third_component :
  apply_transform [1; 1; 5] eye4 = Ok (1, 1, 0) /\
  first3 (dot4 eye4 (Vec4 1 1 5 1)) = (1, 1, 5) /\
  apply_transform [1; 1; 5] eye4 <> Ok (first3 (dot4 eye4 (Vec4 1 1 5 1))) /\
  apply_transform [1; 1; 5] eye4 = apply_transform [1; 1; 7] eye4.
Proof.
  assert (E : apply_transform [1; 1; 5] eye4 = Ok (1, 1, 0)).
  { unfold apply_transform, first3; simpl. f_equal. apply triple_eq; ring. }
  assert (F : first3 (dot4 eye4 (Vec4 1 1 5 1)) = (1, 1, 5)).
  { unfold first3; simpl. apply triple_eq; ring. }
  split; [exact E |]. split; [exact F |]. split.
  - rewrite E, F. intro H. inversion H. lra.
  - reflexivity.
Qed.

(** C9, amended.  [apply_transform], the pixel-to-reference apply, reads
    the first two components of its point and pads them with z = 0 and
    w = 1, so that a third component, if there is one, does not affect the
    result.  [apply_inverse_transform], the reference-to-pixel apply,
    reads three components and pads them with w = 1, and raises
    [IndexError] on a 2-vector.  In both the padded point is multiplied by
    the supplied 4 x 4 matrix and the first three components of the
    product are returned. *)
Theorem apply_padding (affine : mat4) (p q r : R) (rest : list R) :
  apply_transform (p :: q :: rest) affine
    = Ok (first3 (dot4 affine (Vec4 p q 0 1))) /\
  apply_inverse_transform (p :: q :: r :: rest) affine
    = Ok (first3 (dot4 affine (Vec4 p q r 1))) /\
  apply_inverse_transform [p; q] affine = Raise IndexError.
Proof.
  repeat split.
Qed.

(** ** The model of numpy.arctan2 *)

Lemma principal_angle_right (y x : R) : 0 < x -> principal_angle y x = atan (y / x).
Proof.
  intro H. unfold principal_angle.
  destruct (Rlt_dec 0 x) as [_ | N]; [reflexivity | contradiction].
Qed.

Lemma principal_angle_upper_left (y x : R) :
  x < 0 -> 0 <= y -> principal_angle y x = atan (y / x) + PI.
Proof.
  intros Hx Hy. unfold principal_angle.
  destruct (Rlt_dec 0 x) as [P | _]; [lra |].
  destruct (Rlt_dec x 0) as [_ | N]; [| contradiction].
  destruct (Rle_dec 0 y) as [_ | N]; [reflexivity | contradiction].
Qed.

Lemma principal_angle_lower_left (y x : R) :
  x < 0 -> y < 0 -> principal_angle y x = atan (y / x) - PI.
Proof.
  intros Hx Hy. unfold principal_angle.
  destruct (Rlt_dec 0 x) as [P | _]; [lra |].
  destruct (Rlt_dec x 0) as [_ | N]; [| contradiction].
  destruct (Rle_dec 0 y) as [P | _]; [lra | reflexivity].
Qed.

Lemma principal_angle_up (y : R) : 0 < y -> principal_angle y 0 = PI / 2.
Proof.
  intro H. unfold principal_angle.
  destruct (Rlt_dec 0 0) as [P | _]; [lra |].
  destruct (Rlt_dec 0 y) as [_ | N]; [reflexivity | contradiction].
Qed.

Lemma principal_angle_down (y : R) : y < 0 -> principal_angle y 0 = - (PI / 2).
Proof.
  intro H. unfold principal_angle.
  destruct (Rlt_dec 0 0) as [P | _]; [lra |].
  destruct (Rlt_dec 0 y) as [P | _]; [lra |].
  destruct (Rlt_dec y 0) as [_ | N]; [reflexivity | contradiction].
Qed.

Lemma principal_angle_origin : principal_angle 0 0 = 0.
Proof.
  unfold principal_angle.
  destruct (Rlt_dec 0 0) as [P | _]; [lra | reflexivity].
Qed.

Lemma atan_pos (x : R) : 0 < x -> 0 < atan x.
Proof. intro H. rewrite <- atan_0. apply atan_increasing. exact H. Qed.

Lemma atan_nonpos (x : R) : x <= 0 -> atan x <= 0.
Proof.
  intros [H | H].
  - left. rewrite <- atan_0. apply atan_increasing. exact H.
  - rewrite H, atan_0. lra.
Qed.

(** The range of the principal angle. *)
Lemma principal_angle_range (y x : R) : - PI < principal_angle y x <= PI.
Proof.
  pose proof PI_RGT_0 as P.
  destruct (Rlt_dec 0 x) as [Hx | Hx].
  - rewrite principal_angle_right by exact Hx.
    pose proof (atan_bound (y / x)). lra.
  - destruct (Rlt_dec x 0) as [Hx' | Hx'].
    + destruct (Rle_dec 0 y) as [Hy | Hy].
      * rewrite principal_angle_upper_left by assumption.
        pose proof (atan_bound (y / x)).
        assert (atan (y / x) <= 0).
        { apply atan_nonpos. unfold Rdiv.
          assert (/ x < 0) by (apply Rinv_lt_0_compat; exact Hx'). nra. }
        lra.
      * rewrite principal_angle_lower_left by lra.
        pose proof (atan_bound (y / x)).
        assert (0 < atan (y / x)).
        { apply atan_pos. unfold Rdiv.
          assert (/ x < 0) by (apply Rinv_lt_0_compat; exact Hx'). nra. }
        lra.
    + assert (x = 0) by lra. subst x.
      destruct (Rlt_dec 0 y) as [Hy | Hy].
      * rewrite principal_angle_up by exact Hy. lra.
      * destruct (Rlt_dec y 0) as [Hy' | Hy'].
        -- rewrite principal_angle_down by exact Hy'. lra.
        -- assert (y = 0) by lra. subst y. rewrite principal_angle_origin. lra.
Qed.

Lemma tan_shift (t : R) : cos t <> 0 -> tan (t + PI) = tan t.
Proof.
  intro H. unfold tan. rewrite neg_sin, neg_cos. field. exact H.
Qed.

(** The principal angle recovers the angle of a point of the unit circle. *)
Lemma principal_angle_sin_cos (t : R) :
  - PI < t <= PI -> principal_angle (sin t) (cos t) = t.
Proof.
  intros [Hl Hu]. pose proof PI_RGT_0 as P.
  destruct (Rlt_dec t (- (PI / 2))) as [A | A].
  { (* third quadrant *)
    assert (Hc : cos t < 0).
    { rewrite <- cos_neg. apply cos_lt_0; lra. }
    assert (Hs : sin t < 0) by (apply sin_lt_0_var; lra).
    rewrite principal_angle_lower_left by assumption.
    change (sin t / cos t) with (tan t).
    rewrite <- tan_shift by lra. rewrite atan_tan by lra. lra. }
  destruct (Req_dec_T t (- (PI / 2))) as [B | B].
  { subst t. rewrite cos_neg, sin_neg, cos_PI2, sin_PI2.
    apply principal_angle_down. lra. }
  destruct (Rlt_dec t (PI / 2)) as [C | C].
  { assert (Hc : 0 < cos t) by (apply cos_gt_0; lra).
    rewrite principal_angle_right by exact Hc.
    change (sin t / cos t) with (tan t). apply atan_tan. lra. }
  destruct (Req_dec_T t (PI / 2)) as [D | D].
  { subst t. rewrite cos_PI2, sin_PI2. apply principal_angle_up. lra. }
  (* second quadrant *)
  assert (Hc : cos t < 0) by (apply cos_lt_0; lra).
  assert (Hs : 0 <= sin t) by (apply sin_ge_0; lra).
  rewrite principal_angle_upper_left by assumption.
  change (sin t / cos t) with (tan t).
  assert (E : tan t = tan (t - PI)).
  { rewrite <- (tan_shift (t - PI)).
    - f_equal. ring.
    - replace (t - PI) with (- (PI - t)) by ring. rewrite cos_neg.
      replace (PI - t) with (- t + PI) by ring. rewrite neg_cos, cos_neg. lra. }
  rewrite E, atan_tan by lra. ring.
Qed.

(** [np.arctan2] away from the negative x axis, or for a nonzero or
    positive-zero first argument, is the principal angle. *)
Lemma arctan2_principal (y : signed) (x : R) :
  0 <= x \/ value y <> 0 \/ negative_zero y = false ->
  arctan2 y x = principal_angle (value y) x.
Proof.
  intro H. unfold arctan2.
  destruct (Rlt_dec x 0) as [Hx | Hx]; [| reflexivity].
  destruct (Req_dec_T (value y) 0) as [E | N]; [| reflexivity].
  destruct H as [H | [H | H]]; [lra | contradiction |].
  rewrite H, E, principal_angle_upper_left by lra.
  unfold Rdiv. rewrite Rmult_0_l, atan_0. ring.
Qed.

(** On the negative x axis a negative zero gives -PI. *)
Lemma arctan2_negative_zero (y : signed) (x : R) :
  x < 0 -> value y = 0 -> negative_zero y = true -> arctan2 y x = - PI.
Proof.
  intros Hx E B. unfold arctan2.
  destruct (Rlt_dec x 0) as [_ | N]; [| contradiction].
  destruct (Req_dec_T (value y) 0) as [_ | N]; [| contradiction].
  rewrite B. reflexivity.
Qed.

(** The first argument formed in [compute_rotation]. *)
Lemma arctan2_negated (v x : R) :
  v <> 0 \/ 0 <= x ->
  arctan2 (fneg (of_real v)) x = principal_angle (- v) x.
Proof.
  intro H. rewrite arctan2_principal; [reflexivity |].
  simpl. destruct H as [H | H]; [right; left; lra | left; exact H].
Qed.

Lemma arctan2_negated_zero (x : R) :
  x < 0 -> arctan2 (fneg (of_real 0)) x = - PI.
Proof.
  intro H. apply arctan2_negative_zero; [exact H | simpl; ring | reflexivity].
Qed.

(** The range of [np.arctan2]: both ends are reached. *)
Lemma arctan2_range (y : signed) (x : R) : - PI <= arctan2 y x <= PI.
Proof.
  pose proof PI_RGT_0 as P. unfold arctan2.
  pose proof (principal_angle_range (value y) x) as [L U].
  destruct (Rlt_dec x 0) as [Hx | Hx]; [| lra].
  destruct (Req_dec_T (value y) 0) as [E | N]; [| lra].
  destruct (negative_zero y); lra.
Qed.

(** ** Angle extraction *)

(** [compute_rotation] on an orientation of six numbers, as the sequence
    of its checks. *)
Lemma compute_rotation_shape (r0 r1 r2 k0 k1 k2 : R) (in_degrees : bool) :
  compute_rotation [r0; r1; r2; k0; k1; k2] in_degrees
  = let rotation := basis (Vec3 r0 r1 r2) (Vec3 k0 k1 k2) in
    if neqb r2 0 then Raise (ValueError NotPlanarRotation)
    else if neqb k2 0 then Raise (ValueError NotPlanarRotation)
    else if ltb (a22 rotation) 0 then Raise (ValueError FlippedOrientation)
    else
      let angle := arctan2 (fneg (of_real (a01 rotation))) (a00 rotation) in
      Ok (if in_degrees then degrees angle else angle).
Proof.
  unfold compute_rotation; simpl.
  destruct (neqb r2 0); simpl; [reflexivity |].
  destruct (neqb k2 0); simpl; [reflexivity |].
  destruct (ltb _ 0); [reflexivity |].
  destruct in_degrees; reflexivity.
Qed.

(** C4.  On an orientation of six numbers [compute_rotation] raises
    exactly when a precondition fails: the planar-rotation error when
    index 2 or index 5 differs from 0, the flipped-orientation error when
    the basis is constructed (both are 0) and its entry [2, 2] is
    negative, and it returns an angle in every other case. *)
Theorem compute_rotation_raises_iff
    (r0 r1 r2 k0 k1 k2 : R) (in_degrees : bool) :
  exists rotation,
    create_rotation_matrix [r0; r1; r2; k0; k1; k2] = Ok rotation /\
    (raises (compute_rotation [r0; r1; r2; k0; k1; k2] in_degrees)
     <-> r2 <> 0 \/ k2 <> 0 \/ a22 rotation < 0) /\
    (r2 <> 0 \/ k2 <> 0 ->
     compute_rotation [r0; r1; r2; k0; k1; k2] in_degrees
     = Raise (ValueError NotPlanarRotation)) /\
    (r2 = 0 -> k2 = 0 -> a22 rotation < 0 ->
     compute_rotation [r0; r1; r2; k0; k1; k2] in_degrees
     = Raise (ValueError FlippedOrientation)) /\
    (r2 = 0 -> k2 = 0 -> 0 <= a22 rotation ->
     exists angle,
       compute_rotation [r0; r1; r2; k0; k1; k2] in_degrees = Ok angle).
Proof.
  exists (basis (Vec3 r0 r1 r2) (Vec3 k0 k1 k2)).
  split; [reflexivity |].
  rewrite compute_rotation_shape. cbv zeta.
  set (rotation := basis (Vec3 r0 r1 r2) (Vec3 k0 k1 k2)).
  destruct (neqb r2 0) eqn:Er.
  { apply neqb_true in Er. split; [split | split; [| split]].
    - intros _. left. exact Er.
    - intros _. eexists; reflexivity.
    - reflexivity.
    - intros E. contradiction.
    - intros E. contradiction. }
  apply neqb_false in Er.
  destruct (neqb k2 0) eqn:Ek.
  { apply neqb_true in Ek. split; [split | split; [| split]].
    - intros _. right; left. exact Ek.
    - intros _. eexists; reflexivity.
    - reflexivity.
    - intros _ E. contradiction.
    - intros _ E. contradiction. }
  apply neqb_false in Ek.
  destruct (ltb (a22 rotation) 0) eqn:El.
  { apply ltb_true in El. split; [split | split; [| split]].
    - intros _. right; right. exact El.
    - intros _. eexists; reflexivity.
    - intros [N | N]; contradiction.
    - reflexivity.
    - intros _ _ G. lra. }
  apply ltb_false in El. split; [split | split; [| split]].
  - intros [e He]. discriminate He.
  - intros [N | [N | N]]; try contradiction. lra.
  - intros [N | N]; contradiction.
  - intros _ _ G. lra.
  - intros _ _ _. eexists; reflexivity.
Qed.

(** The facts about the orientations (1, 0, 0, 0, 0, 1), (0, 1, 0, 1, 0, 0)
    and (1, 0, 0, 0, 1, 0) that decide their checks. *)
Lemma compute_rotation_witness_inputs :
  (1 : R) <> 0 /\ (0 : R) = 0 /\
  (0 * 0 - 1 * 1 : R) < 0 /\ (0 : R) <= 1 * 1 - 0 * 0.
Proof. repeat split; lra. Qed.

Lemma compute_rotation_raises_iff_witness :
  compute_rotation [1; 0; 0; 0; 0; 1] false
    = Raise (ValueError NotPlanarRotation) /\
  compute_rotation [0; 1; 0; 1; 0; 0] false
    = Raise (ValueError FlippedOrientation) /\
  exists angle, compute_rotation [1; 0; 0; 0; 1; 0] false = Ok angle.
Proof.
  destruct compute_rotation_witness_inputs as (N1 & E0 & Lt & Le).
  split; [| split].
  - destruct (compute_rotation_raises_iff 1 0 0 0 0 1 false)
      as (rotation & _ & _ & H & _).
    apply H. right. exact N1.
  - destruct (compute_rotation_raises_iff 0 1 0 1 0 0 false)
      as (rotation & C & _ & _ & H & _).
    inversion C; subst. apply H; [exact E0 | exact E0 | exact Lt].
  - destruct (compute_rotation_raises_iff 1 0 0 0 1 0 false)
      as (rotation & C & _ & _ & _ & H).
    inversion C; subst. apply H; [exact E0 | exact E0 | exact Le].
Defined.

(** A point of the unit circle lies on the negative x axis only at the
    angle PI. *)
Lemma off_negative_axis (t : R) :
  - PI < t < PI -> - sin t <> 0 \/ 0 <= cos t.
Proof.
  intros [Hl Hu]. pose proof PI_RGT_0 as P.
  destruct (Rlt_dec t 0) as [N | N].
  - left. pose proof (sin_lt_0_var t Hl N). lra.
  - destruct (Rlt_dec 0 t) as [Q | Q].
    + left. pose proof (sin_gt_0 t Q Hu). lra.
    + right. assert (E : t = 0) by lra. subst t. rewrite cos_0. lra.
Qed.

(** For a basis that is a rotation by [t] about the normal, short of a
    half turn, the extractor returns [t]. *)
Lemma compute_rotation_planar_rotation (t : R) :
  - PI < t < PI ->
  compute_rotation [cos t; sin t; 0; - sin t; cos t; 0] false = Ok t.
Proof.
  intro H. rewrite compute_rotation_shape. cbv zeta.
  assert (E : neqb 0 0 = false) by (apply neqb_false; reflexivity).
  rewrite E.
  assert (L : ltb (a22 (basis (Vec3 (cos t) (sin t) 0)
                              (Vec3 (- sin t) (cos t) 0))) 0 = false).
  { apply ltb_false. simpl. pose proof (sin2_cos2 t) as S.
    unfold Rsqr in S. nra. }
  rewrite L. simpl a01. simpl a00.
  rewrite arctan2_negated by (apply off_negative_axis; exact H).
  rewrite Ropp_involutive, principal_angle_sin_cos by lra.
  reflexivity.
Qed.

(** C8.  When index 2 and index 5 of the orientation are 0 and entry
    [2, 2] of the constructed basis R is not negative, [compute_rotation]
    returns arctan2(- R[0, 1], R[0, 0]), converted to degrees when
    requested.  For the orientation (1, 0, 0, 0, 1, 0) it returns 0, and
    for (0, 1, 0, -1, 0, 0) with [in_degrees] it returns 90. *)
Theorem compute_rotation_angle :
  (forall (r0 r1 r2 k0 k1 k2 : R) (rotation : mat3),
     create_rotation_matrix [r0; r1; r2; k0; k1; k2] = Ok rotation ->
     r2 = 0 -> k2 = 0 -> 0 <= a22 rotation ->
     compute_rotation [r0; r1; r2; k0; k1; k2] false
       = Ok (arctan2 (fneg (of_real (a01 rotation))) (a00 rotation)) /\
     compute_rotation [r0; r1; r2; k0; k1; k2] true
       = Ok (degrees (arctan2 (fneg (of_real (a01 rotation)))
                     (a00 rotation)))) /\
  compute_rotation [1; 0; 0; 0; 1; 0] false = Ok 0 /\
  compute_rotation [1; 0; 0; 0; 1; 0] true = Ok 0 /\
  compute_rotation [0; 1; 0; -1; 0; 0] true = Ok 90.
Proof.
  assert (G : forall (r0 r1 r2 k0 k1 k2 : R) (rotation : mat3),
     create_rotation_matrix [r0; r1; r2; k0; k1; k2] = Ok rotation ->
     r2 = 0 -> k2 = 0 -> 0 <= a22 rotation ->
     compute_rotation [r0; r1; r2; k0; k1; k2] false
       = Ok (arctan2 (fneg (of_real (a01 rotation))) (a00 rotation)) /\
     compute_rotation [r0; r1; r2; k0; k1; k2] true
       = Ok (degrees (arctan2 (fneg (of_real (a01 rotation)))
                     (a00 rotation)))).
  { intros r0 r1 r2 k0 k1 k2 rotation C Er Ek Hn.
    assert (B : rotation = basis (Vec3 r0 r1 r2) (Vec3 k0 k1 k2))
      by (inversion C; reflexivity).
    rewrite !compute_rotation_shape. cbv zeta.
    apply neqb_false in Er. apply neqb_false in Ek.
    rewrite B in Hn |- *. apply ltb_false in Hn.
    rewrite Er, Ek, Hn. split; reflexivity. }
  split; [exact G |].
  destruct (G 1 0 0 0 1 0 _ eq_refl eq_refl eq_refl) as [I0 I1];
    [simpl; lra |].
  destruct (G 0 1 0 (-1) 0 0 _ eq_refl eq_refl eq_refl) as [_ Q];
    [simpl; lra |].
  rewrite I0, I1, Q. simpl.
  assert (A : arctan2 (fneg (of_real 0)) 1 = 0).
  { rewrite arctan2_negated, principal_angle_right by lra.
    replace (- 0 / 1) with 0 by field. exact atan_0. }
  assert (B : arctan2 (fneg (of_real (-1))) 0 = PI / 2).
  { rewrite arctan2_negated by lra. apply principal_angle_up. lra. }
  rewrite A, B. unfold degrees.
  split; [reflexivity |]. split; f_equal; field; exact PI_neq0.
Qed.

Lemma compute_rotation_angle_witness :
  create_rotation_matrix [0; 1; 0; -1; 0; 0]
    = Ok (basis (Vec3 0 1 0) (Vec3 (-1) 0 0)) /\
  compute_rotation [0; 1; 0; -1; 0; 0] false
    = Ok (arctan2 (fneg (of_real (a01 (basis (Vec3 0 1 0) (Vec3 (-1) 0 0)))))
                  (a00 (basis (Vec3 0 1 0) (Vec3 (-1) 0 0)))).
Proof.
  split; [reflexivity |].
  destruct compute_rotation_angle as [G _].
  apply (G 0 1 0 (-1) 0 0 (basis (Vec3 0 1 0) (Vec3 (-1) 0 0))
           eq_refl eq_refl eq_refl).
  simpl. lra.
Defined.

(** ** Degenerate orientations *)

Lemma dependent_cross (u v : vec3) :
  ~ independent u v -> norm2 (cross u v) = 0.
Proof.
  intro H. destruct (Req_dec_T (norm2 (cross u v)) 0) as [E | N].
  - exact E.
  - exfalso. apply H. apply cross_independent. exact N.
Qed.

(** C10.  When both z-components are 0 and the row and column cosines are
    linearly dependent, entry [2, 2] of the constructed basis is 0, the
    basis is singular, and [compute_rotation] raises nothing: it returns
    arctan2(- R[0, 1], R[0, 0]) computed from that basis. *)
Theorem compute_rotation_degenerate_basis
    (r0 r1 k0 k1 : R) (in_degrees : bool) :
  ~ independent (Vec3 r0 r1 0) (Vec3 k0 k1 0) ->
  exists rotation,
    create_rotation_matrix [r0; r1; 0; k0; k1; 0] = Ok rotation /\
    a22 rotation = 0 /\
    det3 rotation = 0 /\
    compute_rotation [r0; r1; 0; k0; k1; 0] in_degrees
    = Ok (if in_degrees
          then degrees (arctan2 (fneg (of_real (a01 rotation)))
                                (a00 rotation))
          else arctan2 (fneg (of_real (a01 rotation))) (a00 rotation)).
Proof.
  intro H. apply dependent_cross in H.
  exists (basis (Vec3 r0 r1 0) (Vec3 k0 k1 0)).
  split; [reflexivity |].
  assert (Z : a22 (basis (Vec3 r0 r1 0) (Vec3 k0 k1 0)) = 0).
  { apply norm2_zero in H. destruct H as [_ [_ H]]. exact H. }
  split; [exact Z |]. split.
  - rewrite det3_basis. exact H.
  - rewrite compute_rotation_shape. cbv zeta.
    assert (E : neqb 0 0 = false) by (apply neqb_false; reflexivity).
    assert (L : ltb (a22 (basis (Vec3 r0 r1 0) (Vec3 k0 k1 0))) 0 = false)
      by (apply ltb_false; rewrite Z; lra).
    rewrite E, L. reflexivity.
Qed.

Lemma dependent_xx : ~ independent (Vec3 1 0 0) (Vec3 1 0 0).
Proof.
  intro I. destruct (I 1 (-1)) as [H _]; simpl; lra.
Qed.

Lemma compute_rotation_degenerate_basis_witness :
  ~ independent (Vec3 1 0 0) (Vec3 1 0 0) /\
  exists rotation,
    create_rotation_matrix [1; 0; 0; 1; 0; 0] = Ok rotation /\
    a22 rotation = 0 /\
    det3 rotation = 0 /\
    compute_rotation [1; 0; 0; 1; 0; 0] false
    = Ok (arctan2 (fneg (of_real (a01 rotation))) (a00 rotation)).
Proof.
  split; [exact dependent_xx |].
  exact (compute_rotation_degenerate_basis 1 0 1 0 false dependent_xx).
Defined.

(** * Further properties of the module *)

(** ** Shapes of the arguments *)

Lemma item_short (s : list R) (i : nat) :
  (length s <= i)%nat -> item s i = Raise IndexError.
Proof.
  intro H. unfold item.
  destruct (nth_error s i) as [x |] eqn:E; [| reflexivity].
  assert (N : nth_error s i <> None) by (rewrite E; discriminate).
  apply nth_error_Some in N. lia.
Qed.

Lemma item_long (s : list R) (i : nat) :
  (i < length s)%nat -> exists x, item s i = Ok x.
Proof.
  intro H. unfold item.
  destruct (nth_error s i) as [x |] eqn:E.
  - exists x; reflexivity.
  - apply nth_error_None in E. lia.
Qed.

Lemma create_rotation_matrix_six (o : list R) :
  length o = 6%nat -> exists m, create_rotation_matrix o = Ok m.
Proof.
  intro H.
  destruct o as [| a [| b [| c [| d [| e [| f [| g t]]]]]]];
    simpl in H; try discriminate H.
  eexists; reflexivity.
Qed.

Lemma create_rotation_matrix_not_six (o : list R) :
  length o <> 6%nat ->
  create_rotation_matrix o = Raise (ValueError ShapeMismatch).
Proof.
  intro H.
  destruct o as [| a [| b [| c [| d [| e [| f [| g t]]]]]]];
    try reflexivity.
  exfalso. apply H. reflexivity.
Qed.

Lemma build_inverse_transform_prefix
    (x y z : R) (pos' : list R) (row column : vec3) (s0 s1 : R)
    (sp' : list R) (ss : R) :
  build_inverse_transform (x :: y :: z :: pos') (orientation_of row column)
    (s0 :: s1 :: sp') ss
  = inv_rotation <- linalg_inv (scaled_basis row column s0 s1 ss) ;;
    Ok (affine_of inv_rotation (neg3 (dot3 inv_rotation (Vec3 x y z)))).
Proof.
  destruct row, column; reflexivity.
Qed.

(** X1.  [create_rotation_matrix] returns a matrix exactly for an
    orientation of six numbers; for every other length the shape error of
    numpy is raised. *)
Theorem create_rotation_matrix_returns_iff (orientation : list R) :
  ((exists rotation, create_rotation_matrix orientation = Ok rotation)
   <-> length orientation = 6%nat) /\
  (create_rotation_matrix orientation = Raise (ValueError ShapeMismatch)
   <-> length orientation <> 6%nat).
Proof.
  destruct (Nat.eq_dec (length orientation) 6) as [E | N].
  - destruct (create_rotation_matrix_six _ E) as [m Hm].
    split; split; intro H.
    + exact E.
    + exists m; exact Hm.
    + rewrite Hm in H. discriminate H.
    + contradiction.
  - pose proof (create_rotation_matrix_not_six _ N) as Hr.
    split; split; intro H.
    + destruct H as [m Hm]. rewrite Hr in Hm. discriminate Hm.
    + contradiction.
    + exact N.
    + exact Hr.
Qed.

(** X2.  [build_transform] returns a matrix exactly when the position has
    at least three elements, the orientation exactly six and the pixel
    spacing at least two; no value of a spacing or cosine makes it fail.
    The arguments are examined in that order: a short position raises
    [IndexError], then a malformed orientation the shape error, then a
    short pixel spacing [IndexError]. *)
Theorem build_transform_returns_iff (position orientation spacing : list R) :
  ((exists forward, build_transform position orientation spacing = Ok forward)
   <-> (3 <= length position)%nat /\ length orientation = 6%nat /\
       (2 <= length spacing)%nat) /\
  ((length position < 3)%nat ->
   build_transform position orientation spacing = Raise IndexError) /\
  ((3 <= length position)%nat -> length orientation <> 6%nat ->
   build_transform position orientation spacing
   = Raise (ValueError ShapeMismatch)) /\
  ((3 <= length position)%nat -> length orientation = 6%nat ->
   (length spacing < 2)%nat ->
   build_transform position orientation spacing = Raise IndexError).
Proof.
  assert (P : (length position < 3)%nat ->
              build_transform position orientation spacing = Raise IndexError).
  { intro H. destruct position as [| x [| y [| z t]]]; try reflexivity.
    simpl in H. lia. }
  assert (O : (3 <= length position)%nat -> length orientation <> 6%nat ->
              build_transform position orientation spacing
              = Raise (ValueError ShapeMismatch)).
  { intros H N. destruct position as [| x [| y [| z t]]];
      try (simpl in H; lia).
    unfold build_transform; simpl.
    rewrite (create_rotation_matrix_not_six _ N). reflexivity. }
  assert (S : (3 <= length position)%nat -> length orientation = 6%nat ->
              (length spacing < 2)%nat ->
              build_transform position orientation spacing = Raise IndexError).
  { intros H E L. destruct position as [| x [| y [| z t]]];
      try (simpl in H; lia).
    destruct (create_rotation_matrix_six _ E) as [m Hm].
    unfold build_transform; simpl. rewrite Hm; simpl.
    destruct spacing as [| s0 [| s1 u]]; try reflexivity.
    simpl in L. lia. }
  split; [| split; [exact P | split; [exact O | exact S]]].
  split.
  - intros [m Hm].
    destruct (Nat.lt_ge_cases (length position) 3) as [L | G].
    { rewrite (P L) in Hm. discriminate Hm. }
    destruct (Nat.eq_dec (length orientation) 6) as [E | N].
    2:{ rewrite (O G N) in Hm. discriminate Hm. }
    destruct (Nat.lt_ge_cases (length spacing) 2) as [L | G'].
    { rewrite (S G E L) in Hm. discriminate Hm. }
    repeat split; assumption.
  - intros (G & E & G').
    destruct position as [| x [| y [| z t]]]; try (simpl in G; lia).
    destruct spacing as [| s0 [| s1 u]]; try (simpl in G'; lia).
    destruct (create_rotation_matrix_six _ E) as [m Hm].
    unfold build_transform; simpl. rewrite Hm; simpl.
    eexists; reflexivity.
Qed.

(** X3.  [build_inverse_transform] returns a matrix exactly when the
    position has at least three elements, the orientation consists of two
    triplets that are linearly independent, the pixel spacing starts with
    two nonzero numbers and the slice spacing is nonzero. *)
Theorem build_inverse_transform_returns_iff
    (position orientation spacing : list R) (slice_spacing : R) :
  (exists inverse,
     build_inverse_transform position orientation spacing slice_spacing
     = Ok inverse)
  <-> (3 <= length position)%nat /\
      exists row column s0 s1 rest,
        orientation = orientation_of row column /\
        spacing = s0 :: s1 :: rest /\
        s0 <> 0 /\ s1 <> 0 /\ slice_spacing <> 0 /\
        independent row column.
Proof.
  split.
  - intros [g Hg]. split.
    + apply build_inverse_transform_Ok in Hg.
      destruct Hg as (x & y & z & t & _ & _ & _ & _ & _ & _ & -> & _).
      simpl. lia.
    + apply build_inverse_transform_Ok_regular in Hg.
      destruct Hg as (row & column & s0 & s1 & rest & Ho & Hs & H).
      exists row, column, s0, s1, rest. tauto.
  - intros (G & row & column & s0 & s1 & rest & -> & -> & H0 & H1 & Hs & I).
    destruct position as [| x [| y [| z t]]]; try (simpl in G; lia).
    pose proof (scaled_basis_regular row column s0 s1 slice_spacing
                  H0 H1 Hs I) as N.
    rewrite build_inverse_transform_prefix, (linalg_inv_regular _ N).
    eexists; reflexivity.
Qed.

(** X4.  [apply_transform] needs a coordinate of at least two elements
    and [apply_inverse_transform] one of at least three; a shorter one
    raises [IndexError], and no other error is possible. *)
Theorem apply_returns_iff (coordinate : list R) (affine : mat4) :
  ((exists point, apply_transform coordinate affine = Ok point)
   <-> (2 <= length coordinate)%nat) /\
  (apply_transform coordinate affine = Raise IndexError
   <-> (length coordinate < 2)%nat) /\
  ((exists point, apply_inverse_transform coordinate affine = Ok point)
   <-> (3 <= length coordinate)%nat) /\
  (apply_inverse_transform coordinate affine = Raise IndexError
   <-> (length coordinate < 3)%nat).
Proof.
  destruct coordinate as [| x [| y [| z t]]]; simpl;
    unfold apply_transform, apply_inverse_transform; simpl;
    repeat split; intro H;
    try lia; try reflexivity; try discriminate H;
    try (destruct H as [p Hp]; discriminate Hp);
    try (eexists; reflexivity).
Qed.

(** ** The basis as a rotation matrix *)

(** A left inverse, too, is what [linalg_inv] returns. *)
Lemma linalg_inv_unique_l (m i : mat3) :
  mul3 i m = eye3 -> linalg_inv m = Ok i.
Proof.
  intro H.
  assert (N : det3 m <> 0).
  { intro E. pose proof (det3_mul i m) as D.
    rewrite H, det3_eye, E in D. lra. }
  pose proof (linalg_inv_regular _ N) as L.
  destruct (linalg_inv_Ok _ _ L) as [_ [Hr _]].
  rewrite L. f_equal.
  rewrite <- (mul3_eye_l (scale3 (/ det3 m) (adjugate3 m))).
  rewrite <- H, mul3_assoc, Hr, mul3_eye_r. reflexivity.
Qed.

Lemma cross_orthogonal (u v : vec3) :
  dotp u (cross u v) = 0 /\ dotp v (cross u v) = 0.
Proof.
  destruct u, v; unfold dotp; simpl; split; ring.
Qed.

(** Lagrange's identity. *)
Lemma norm2_cross (u v : vec3) :
  norm2 (cross u v) = dotp u u * dotp v v - dotp u v * dotp u v.
Proof.
  destruct u, v; unfold norm2, dotp; simpl; ring.
Qed.

Lemma basis_gram (row column : vec3) :
  mul3 (transpose3 (basis row column)) (basis row column)
  = Mat3 (dotp row row) (dotp row column) 0
         (dotp row column) (dotp column column) 0
         0 0 (norm2 (cross row column)).
Proof.
  destruct row, column; apply mat3_eq; unfold dotp, norm2; simpl; ring.
Qed.

Lemma basis_orthogonal (row column : vec3) :
  orthonormal row column ->
  mul3 (transpose3 (basis row column)) (basis row column) = eye3.
Proof.
  intros (Hr & Hc & Ho).
  rewrite basis_gram, norm2_cross, Hr, Hc, Ho.
  apply mat3_eq; simpl; ring.
Qed.

Lemma orthonormal_xy : orthonormal (Vec3 1 0 0) (Vec3 0 1 0).
Proof.
  unfold orthonormal, dotp; simpl. repeat split; ring.
Qed.

(** X5.  For direction cosines of unit length that are orthogonal to each
    other, [create_rotation_matrix] returns a rotation matrix, as its
    documentation says: its transpose is its inverse on both sides and its
    determinant is 1. *)
Theorem create_rotation_matrix_rotation (r0 r1 r2 k0 k1 k2 : R) :
  orthonormal (Vec3 r0 r1 r2) (Vec3 k0 k1 k2) ->
  exists rotation,
    create_rotation_matrix [r0; r1; r2; k0; k1; k2] = Ok rotation /\
    mul3 (transpose3 rotation) rotation = eye3 /\
    mul3 rotation (transpose3 rotation) = eye3 /\
    det3 rotation = 1.
Proof.
  intro H. exists (basis (Vec3 r0 r1 r2) (Vec3 k0 k1 k2)).
  split; [reflexivity |].
  pose proof (basis_orthogonal _ _ H) as G.
  split; [exact G |]. split.
  - apply linalg_inv_unique_l in G. apply linalg_inv_Ok in G. tauto.
  - destruct H as (Hr & Hc & Ho).
    rewrite det3_basis, norm2_cross, Hr, Hc, Ho. ring.
Qed.

Lemma create_rotation_matrix_rotation_witness :
  orthonormal (Vec3 1 0 0) (Vec3 0 1 0) /\
  exists rotation,
    create_rotation_matrix [1; 0; 0; 0; 1; 0] = Ok rotation /\
    mul3 (transpose3 rotation) rotation = eye3 /\
    mul3 rotation (transpose3 rotation) = eye3 /\
    det3 rotation = 1.
Proof.
  split; [exact orthonormal_xy |].
  exact (create_rotation_matrix_rotation 1 0 0 0 1 0 orthonormal_xy).
Defined.

(** X6.  Whatever the six numbers of the orientation are, the third column
    of the matrix [create_rotation_matrix] returns is orthogonal to the
    first two, and the determinant is the squared length of that column:
    it is never negative, and it is zero exactly when the row and column
    cosines are linearly dependent. *)
Theorem create_rotation_matrix_right_handed (r0 r1 r2 k0 k1 k2 : R) :
  exists rotation,
    create_rotation_matrix [r0; r1; r2; k0; k1; k2] = Ok rotation /\
    a00 rotation * a02 rotation + a10 rotation * a12 rotation
      + a20 rotation * a22 rotation = 0 /\
    a01 rotation * a02 rotation + a11 rotation * a12 rotation
      + a21 rotation * a22 rotation = 0 /\
    det3 rotation
      = a02 rotation * a02 rotation + a12 rotation * a12 rotation
        + a22 rotation * a22 rotation /\
    0 <= det3 rotation /\
    (det3 rotation = 0 <-> ~ independent (Vec3 r0 r1 r2) (Vec3 k0 k1 k2)).
Proof.
  exists (basis (Vec3 r0 r1 r2) (Vec3 k0 k1 k2)).
  split; [reflexivity |].
  split; [simpl; ring |]. split; [simpl; ring |].
  split; [unfold det3; simpl; ring |].
  rewrite det3_basis. split.
  - unfold norm2. nra.
  - split.
    + intros E I. apply independent_cross in I. contradiction.
    + apply dependent_cross.
Qed.

(** ** The forward mapping in closed form *)

Lemma vec3_eq (u v : vec3) :
  c0 u = c0 v -> c1 u = c1 v -> c2 u = c2 v -> u = v.
Proof.
  destruct u, v; simpl; intros; subst; reflexivity.
Qed.

Lemma affine_apply (m : mat3) (t : vec3) (x y z : R) :
  vec_of (first3 (dot4 (affine_of m t) (Vec4 x y z 1)))
  = add3 (dot3 m (Vec3 x y z)) t.
Proof.
  destruct m, t; apply vec3_eq; simpl; ring.
Qed.

Lemma dot3_scaled_basis (row column : vec3) (s0 s1 ss c r k : R) :
  dot3 (scaled_basis row column s0 s1 ss) (Vec3 c r k)
  = add3 (add3 (scale_vec (c * s1) row) (scale_vec (r * s0) column))
         (scale_vec (k * ss) (cross row column)).
Proof.
  destruct row, column; apply vec3_eq; simpl; ring.
Qed.

Lemma map_pixel_into_coordinate_system_formula_aux
    (column row x y z r0 r1 r2 k0 k1 k2 s0 s1 : R) :
  map_pixel_into_coordinate_system [column; row] [x; y; z]
    [r0; r1; r2; k0; k1; k2] [s0; s1]
  = Ok (x + column * s1 * r0 + row * s0 * k0,
        y + column * s1 * r1 + row * s0 * k1,
        z + column * s1 * r2 + row * s0 * k2).
Proof.
  unfold map_pixel_into_coordinate_system, apply_transform, first3; simpl.
  f_equal. apply triple_eq; ring.
Qed.

(** X7.  [map_pixel_into_coordinate_system] sends the pixel coordinate
    (column, row) to
    position + column * pixel_spacing[1] * row_cosines
             + row * pixel_spacing[0] * column_cosines:
    the normal of the basis and any further element of the coordinate play
    no part. *)
Theorem map_pixel_into_coordinate_system_formula
    (column row : R) (rest : list R) (x y z r0 r1 r2 k0 k1 k2 s0 s1 : R) :
  map_pixel_into_coordinate_system (column :: row :: rest) [x; y; z]
    [r0; r1; r2; k0; k1; k2] [s0; s1]
  = Ok (x + column * s1 * r0 + row * s0 * k0,
        y + column * s1 * r1 + row * s0 * k1,
        z + column * s1 * r2 + row * s0 * k2).
Proof.
  unfold map_pixel_into_coordinate_system, apply_transform, first3; simpl.
  f_equal. apply triple_eq; ring.
Qed.

(** X8.  For orthonormal direction cosines the squared distance between
    the reference points of two pixels is
    (pixel_spacing[1] * difference of columns)^2
    + (pixel_spacing[0] * difference of rows)^2: the pixel spacings are
    the physical distances between neighbouring columns and rows. *)
Theorem map_pixel_distance
    (x y z r0 r1 r2 k0 k1 k2 s0 s1 column row column' row' : R) :
  orthonormal (Vec3 r0 r1 r2) (Vec3 k0 k1 k2) ->
  exists p q,
    map_pixel_into_coordinate_system [column; row] [x; y; z]
      [r0; r1; r2; k0; k1; k2] [s0; s1] = Ok p /\
    map_pixel_into_coordinate_system [column'; row'] [x; y; z]
      [r0; r1; r2; k0; k1; k2] [s0; s1] = Ok q /\
    norm2 (sub3 (vec_of p) (vec_of q))
    = (s1 * (column - column')) * (s1 * (column - column'))
      + (s0 * (row - row')) * (s0 * (row - row')).
Proof.
  intros (Hr & Hc & Ho). unfold dotp in Hr, Hc, Ho; simpl in Hr, Hc, Ho.
  eexists. eexists.
  split; [apply map_pixel_into_coordinate_system_formula_aux |].
  split; [apply map_pixel_into_coordinate_system_formula_aux |].
  unfold norm2; simpl.
  set (a := s1 * (column - column')). set (b := s0 * (row - row')).
  transitivity (a * a * (r0 * r0 + r1 * r1 + r2 * r2)
                + 2 * a * b * (r0 * k0 + r1 * k1 + r2 * k2)
                + b * b * (k0 * k0 + k1 * k1 + k2 * k2)).
  - unfold a, b; ring.
  - rewrite Hr, Hc, Ho. ring.
Qed.

Lemma map_pixel_distance_witness :
  orthonormal (Vec3 1 0 0) (Vec3 0 1 0) /\
  exists p q,
    map_pixel_into_coordinate_system [4; 6] [10; 20; 30]
      [1; 0; 0; 0; 1; 0] [2; 3] = Ok p /\
    map_pixel_into_coordinate_system [1; 2] [10; 20; 30]
      [1; 0; 0; 0; 1; 0] [2; 3] = Ok q /\
    norm2 (sub3 (vec_of p) (vec_of q))
    = (3 * (4 - 1)) * (3 * (4 - 1)) + (2 * (6 - 2)) * (2 * (6 - 2)).
Proof.
  split; [exact orthonormal_xy |].
  exact (map_pixel_distance 10 20 30 1 0 0 0 1 0 2 3 4 6 1 2 orthonormal_xy).
Defined.

(** X9.  With nonzero pixel spacings and linearly independent direction
    cosines, [map_pixel_into_coordinate_system] never sends two different
    pixel coordinates to the same reference point. *)
Theorem map_pixel_injective
    (x y z r0 r1 r2 k0 k1 k2 s0 s1 column row column' row' : R) :
  s0 <> 0 -> s1 <> 0 ->
  independent (Vec3 r0 r1 r2) (Vec3 k0 k1 k2) ->
  map_pixel_into_coordinate_system [column; row] [x; y; z]
    [r0; r1; r2; k0; k1; k2] [s0; s1]
  = map_pixel_into_coordinate_system [column'; row'] [x; y; z]
      [r0; r1; r2; k0; k1; k2] [s0; s1] ->
  column = column' /\ row = row'.
Proof.
  intros H0 H1 I E.
  rewrite !map_pixel_into_coordinate_system_formula_aux in E.
  inversion E as [[Ex Ey Ez]].
  destruct (I ((column - column') * s1) ((row - row') * s0)) as [A B];
    simpl; try lra.
  split.
  - apply Rmult_integral in A. destruct A as [A | A]; [lra | contradiction].
  - apply Rmult_integral in B. destruct B as [B | B]; [lra | contradiction].
Qed.

Lemma map_pixel_injective_witness :
  2 <> 0 /\ 3 <> 0 /\ independent (Vec3 1 0 0) (Vec3 0 1 0) /\
  map_pixel_into_coordinate_system [4; 6] [10; 20; 30]
    [1; 0; 0; 0; 1; 0] [2; 3]
  = map_pixel_into_coordinate_system [8 / 2; 2 * 3] [10; 20; 30]
      [1; 0; 0; 0; 1; 0] [2; 3] /\
  4 = 8 / 2 /\ 6 = 2 * 3.
Proof.
  assert (H2 : 2 <> 0) by lra.
  assert (H3 : 3 <> 0) by lra.
  assert (E : map_pixel_into_coordinate_system [4; 6] [10; 20; 30]
                [1; 0; 0; 0; 1; 0] [2; 3]
              = map_pixel_into_coordinate_system [8 / 2; 2 * 3] [10; 20; 30]
                  [1; 0; 0; 0; 1; 0] [2; 3]).
  { rewrite !map_pixel_into_coordinate_system_formula_aux.
    f_equal. apply triple_eq; field. }
  split; [exact H2 |]. split; [exact H3 |].
  split; [exact independent_xy |]. split; [exact E |].
  exact (map_pixel_injective 10 20 30 1 0 0 0 1 0 2 3 4 6 (8 / 2) (2 * 3)
           H2 H3 independent_xy E).
Defined.

(** ** Reference points and the image plane *)

Lemma dot3_add3 (m : mat3) (u v : vec3) :
  dot3 m (add3 u v) = add3 (dot3 m u) (dot3 m v).
Proof.
  destruct m, u, v; apply vec3_eq; simpl; ring.
Qed.

Lemma map_coordinate_into_pixel_matrix_Ok
    (px py pz x y z : R) (row column : vec3) (s0 s1 ss : R)
    (pixel : R * R * R) :
  map_coordinate_into_pixel_matrix [px; py; pz] [x; y; z]
    (orientation_of row column) [s0; s1] ss = Ok pixel ->
  exists i,
    mul3 (scaled_basis row column s0 s1 ss) i = eye3 /\
    mul3 i (scaled_basis row column s0 s1 ss) = eye3 /\
    vec_of pixel
    = add3 (dot3 i (Vec3 px py pz)) (neg3 (dot3 i (Vec3 x y z))).
Proof.
  unfold map_coordinate_into_pixel_matrix.
  rewrite build_inverse_transform_shape. intro H.
  destruct (linalg_inv (scaled_basis row column s0 s1 ss)) as [i | e] eqn:L;
    [| discriminate H].
  apply linalg_inv_Ok in L. destruct L as [_ [Hr Hl]].
  exists i. split; [exact Hr |]. split; [exact Hl |].
  simpl in H. unfold apply_inverse_transform in H; simpl in H.
  inversion H. apply affine_apply.
Qed.

(** A reference point is the position plus the scaled basis applied to the
    pixel coordinate it is mapped to. *)
Lemma reference_point_of_pixel
    (px py pz x y z : R) (row column : vec3) (s0 s1 ss : R)
    (pixel : R * R * R) :
  map_coordinate_into_pixel_matrix [px; py; pz] [x; y; z]
    (orientation_of row column) [s0; s1] ss = Ok pixel ->
  Vec3 px py pz
  = add3 (Vec3 x y z) (dot3 (scaled_basis row column s0 s1 ss) (vec_of pixel)).
Proof.
  intro H. apply map_coordinate_into_pixel_matrix_Ok in H.
  destruct H as (i & Hr & _ & Hq).
  rewrite Hq, dot3_add3, dot3_neg3, <- !dot3_mul3, Hr, !dot3_eye.
  apply vec3_eq; simpl; ring.
Qed.

Lemma vec_of_inj (p q : R * R * R) : vec_of p = vec_of q -> p = q.
Proof.
  destruct p as [[a b] c], q as [[a' b'] c']; simpl; intro H.
  inversion H; reflexivity.
Qed.

(** X10.  Whenever [map_coordinate_into_pixel_matrix] returns
    (column, row, slice) for a reference point, that point is
    position + column * pixel_spacing[1] * row_cosines
             + row * pixel_spacing[0] * column_cosines
             + slice * spacing_between_slices * normal,
    the normal being the cross product of the row and column cosines:
    the slice coordinate counts steps of [spacing_between_slices] along
    the normal. *)
Theorem reference_point_decomposition
    (px py pz x y z r0 r1 r2 k0 k1 k2 s0 s1 slice_spacing
     column row slice : R) :
  map_coordinate_into_pixel_matrix [px; py; pz] [x; y; z]
    [r0; r1; r2; k0; k1; k2] [s0; s1] slice_spacing
  = Ok (column, row, slice) ->
  Vec3 px py pz
  = add3 (plane_point (Vec3 x y z) (Vec3 r0 r1 r2) (Vec3 k0 k1 k2)
                      s0 s1 column row)
         (scale_vec (slice * slice_spacing)
                    (cross (Vec3 r0 r1 r2) (Vec3 k0 k1 k2))).
Proof.
  intro H.
  change [r0; r1; r2; k0; k1; k2]
    with (orientation_of (Vec3 r0 r1 r2) (Vec3 k0 k1 k2)) in H.
  apply reference_point_of_pixel in H.
  rewrite H. simpl vec_of. rewrite dot3_scaled_basis.
  unfold plane_point. apply vec3_eq; simpl; ring.
Qed.

Lemma scenario_reference_point :
  map_coordinate_into_pixel_matrix [13; 22; 38] [10; 20; 30]
    [1; 0; 0; 0; 1; 0] [2; 3] 4 = Ok (1, 1, 2).
Proof.
  unfold map_coordinate_into_pixel_matrix. rewrite scenario_inverse.
  unfold apply_inverse_transform, first3; simpl. f_equal.
  apply triple_eq; field.
Qed.

Lemma reference_point_decomposition_witness :
  map_coordinate_into_pixel_matrix [13; 22; 38] [10; 20; 30]
    [1; 0; 0; 0; 1; 0] [2; 3] 4 = Ok (1, 1, 2) /\
  Vec3 13 22 38
  = add3 (plane_point (Vec3 10 20 30) (Vec3 1 0 0) (Vec3 0 1 0) 2 3 1 1)
         (scale_vec (2 * 4) (cross (Vec3 1 0 0) (Vec3 0 1 0))).
Proof.
  split; [exact scenario_reference_point |].
  exact (reference_point_decomposition 13 22 38 10 20 30 1 0 0 0 1 0 2 3 4
           1 1 2 scenario_reference_point).
Defined.




(** X12.  With nonzero spacings and linearly independent direction
    cosines the two wrappers compose to the identity on pixel coordinates:
    [map_coordinate_into_pixel_matrix] sends the reference point of
    (column, row) back to (column, row, 0), whatever the slice spacing. *)
Theorem map_round_trip
    (x y z r0 r1 r2 k0 k1 k2 s0 s1 slice_spacing column row : R) :
  s0 <> 0 -> s1 <> 0 -> slice_spacing <> 0 ->
  independent (Vec3 r0 r1 r2) (Vec3 k0 k1 k2) ->
  exists point,
    map_pixel_into_coordinate_system [column; row] [x; y; z]
      [r0; r1; r2; k0; k1; k2] [s0; s1] = Ok point /\
    map_coordinate_into_pixel_matrix (seq_of point) [x; y; z]
      [r0; r1; r2; k0; k1; k2] [s0; s1] slice_spacing
    = Ok (column, row, 0).
Proof.
  intros H0 H1 Hs I.
  eexists. split; [apply map_pixel_into_coordinate_system_formula_aux |].
  change [r0; r1; r2; k0; k1; k2]
    with (orientation_of (Vec3 r0 r1 r2) (Vec3 k0 k1 k2)).
  set (u := Vec3 r0 r1 r2) in *. set (v := Vec3 k0 k1 k2) in *.
  pose proof (scaled_basis_regular u v s0 s1 slice_spacing H0 H1 Hs I) as N.
  pose proof (linalg_inv_regular _ N) as L.
  destruct (linalg_inv_Ok _ _ L) as [_ [_ Hl]].
  unfold map_coordinate_into_pixel_matrix.
  rewrite build_inverse_transform_shape, L.
  set (i := scale3 (/ det3 (scaled_basis u v s0 s1 slice_spacing))
                   (adjugate3 (scaled_basis u v s0 s1 slice_spacing))) in *.
  simpl. unfold apply_inverse_transform; simpl item; simpl bind.
  f_equal. apply vec_of_inj. rewrite affine_apply.
  change (vec_of (column, row, 0)) with (Vec3 column row 0).
  rewrite <- (dot3_eye (Vec3 column row 0)), <- Hl, dot3_mul3.
  rewrite dot3_scaled_basis, <- dot3_neg3, <- dot3_add3.
  f_equal. apply vec3_eq; simpl; ring.
Qed.

Lemma map_round_trip_witness :
  2 <> 0 /\ 3 <> 0 /\ 4 <> 0 /\ independent (Vec3 1 0 0) (Vec3 0 1 0) /\
  exists point,
    map_pixel_into_coordinate_system [5; 7] [10; 20; 30]
      [1; 0; 0; 0; 1; 0] [2; 3] = Ok point /\
    map_coordinate_into_pixel_matrix (seq_of point) [10; 20; 30]
      [1; 0; 0; 0; 1; 0] [2; 3] 4 = Ok (5, 7, 0).
Proof.
  assert (H2 : 2 <> 0) by lra.
  assert (H3 : 3 <> 0) by lra.
  assert (H4 : 4 <> 0) by lra.
  split; [exact H2 |]. split; [exact H3 |]. split; [exact H4 |].
  split; [exact independent_xy |].
  exact (map_round_trip 10 20 30 1 0 0 0 1 0 2 3 4 5 7
           H2 H3 H4 independent_xy).
Defined.

(** ** The inverse mapping in closed form *)

Lemma scaled_basis_diagm (row column : vec3) (s0 s1 ss : R) :
  scaled_basis row column s0 s1 ss
  = mul3 (basis row column) (diagm s1 s0 ss).
Proof.
  destruct row, column; apply mat3_eq; simpl; ring.
Qed.

Lemma diagm_mul (a b c a' b' c' : R) :
  mul3 (diagm a b c) (diagm a' b' c') = diagm (a * a') (b * b') (c * c').
Proof.
  apply mat3_eq; simpl; ring.
Qed.

(** Evaluating [map_coordinate_into_pixel_matrix] once a left inverse of
    the scaled basis is known. *)
Lemma map_coordinate_by_inverse
    (px py pz x y z : R) (row column : vec3) (s0 s1 ss : R) (i : mat3) :
  mul3 i (scaled_basis row column s0 s1 ss) = eye3 ->
  map_coordinate_into_pixel_matrix [px; py; pz] [x; y; z]
    (orientation_of row column) [s0; s1] ss
  = Ok (tuple_of (dot3 i (sub3 (Vec3 px py pz) (Vec3 x y z)))).
Proof.
  intro H. unfold map_coordinate_into_pixel_matrix.
  rewrite build_inverse_transform_shape, (linalg_inv_unique_l _ _ H).
  destruct i. unfold apply_inverse_transform, first3, tuple_of; simpl.
  f_equal. apply triple_eq; ring.
Qed.

(** X13.  For orthonormal direction cosines and nonzero spacings,
    [map_coordinate_into_pixel_matrix] projects the offset of the
    reference point from the position onto the row cosines, the column
    cosines and the normal, and divides by pixel_spacing[1],
    pixel_spacing[0] and the slice spacing: the slice coordinate is the
    signed distance from the image plane in units of the slice spacing. *)
Theorem map_coordinate_orthonormal
    (px py pz x y z r0 r1 r2 k0 k1 k2 s0 s1 slice_spacing : R) :
  orthonormal (Vec3 r0 r1 r2) (Vec3 k0 k1 k2) ->
  s0 <> 0 -> s1 <> 0 -> slice_spacing <> 0 ->
  map_coordinate_into_pixel_matrix [px; py; pz] [x; y; z]
    [r0; r1; r2; k0; k1; k2] [s0; s1] slice_spacing
  = Ok (dotp (sub3 (Vec3 px py pz) (Vec3 x y z)) (Vec3 r0 r1 r2) / s1,
        dotp (sub3 (Vec3 px py pz) (Vec3 x y z)) (Vec3 k0 k1 k2) / s0,
        dotp (sub3 (Vec3 px py pz) (Vec3 x y z))
             (cross (Vec3 r0 r1 r2) (Vec3 k0 k1 k2)) / slice_spacing).
Proof.
  intros O H0 H1 Hs.
  change [r0; r1; r2; k0; k1; k2]
    with (orientation_of (Vec3 r0 r1 r2) (Vec3 k0 k1 k2)).
  set (u := Vec3 r0 r1 r2) in *. set (v := Vec3 k0 k1 k2) in *.
  rewrite (map_coordinate_by_inverse _ _ _ _ _ _ _ _ _ _ _
             (mul3 (diagm (/ s1) (/ s0) (/ slice_spacing))
                   (transpose3 (basis u v)))).
  - unfold tuple_of, dotp, u, v; simpl. f_equal. apply triple_eq; field;
      assumption.
  - rewrite scaled_basis_diagm, mul3_assoc,
      <- (mul3_assoc (transpose3 (basis u v))),
      (basis_orthogonal _ _ O), mul3_eye_l, diagm_mul.
    apply mat3_eq; simpl; try reflexivity; field; assumption.
Qed.

Lemma map_coordinate_orthonormal_witness :
  orthonormal (Vec3 1 0 0) (Vec3 0 1 0) /\ 2 <> 0 /\ 3 <> 0 /\ 4 <> 0 /\
  map_coordinate_into_pixel_matrix [13; 22; 38] [10; 20; 30]
    [1; 0; 0; 0; 1; 0] [2; 3] 4
  = Ok (dotp (sub3 (Vec3 13 22 38) (Vec3 10 20 30)) (Vec3 1 0 0) / 3,
        dotp (sub3 (Vec3 13 22 38) (Vec3 10 20 30)) (Vec3 0 1 0) / 2,
        dotp (sub3 (Vec3 13 22 38) (Vec3 10 20 30))
             (cross (Vec3 1 0 0) (Vec3 0 1 0)) / 4).
Proof.
  assert (H2 : 2 <> 0) by lra.
  assert (H3 : 3 <> 0) by lra.
  assert (H4 : 4 <> 0) by lra.
  split; [exact orthonormal_xy |].
  split; [exact H2 |]. split; [exact H3 |]. split; [exact H4 |].
  exact (map_coordinate_orthonormal 13 22 38 10 20 30 1 0 0 0 1 0 2 3 4
           orthonormal_xy H2 H3 H4).
Defined.

(** X14.  The slice spacing only rescales the slice coordinate: when
    [map_coordinate_into_pixel_matrix] returns (column, row, slice) with
    one slice spacing, then with any other nonzero slice spacing it returns
    the same column and row, and the slice coordinate multiplied by the
    ratio of the two spacings. *)
Theorem map_coordinate_slice_spacing
    (px py pz x y z r0 r1 r2 k0 k1 k2 s0 s1 slice_spacing slice_spacing'
     column row slice : R) :
  map_coordinate_into_pixel_matrix [px; py; pz] [x; y; z]
    [r0; r1; r2; k0; k1; k2] [s0; s1] slice_spacing
  = Ok (column, row, slice) ->
  slice_spacing' <> 0 ->
  map_coordinate_into_pixel_matrix [px; py; pz] [x; y; z]
    [r0; r1; r2; k0; k1; k2] [s0; s1] slice_spacing'
  = Ok (column, row, slice * slice_spacing / slice_spacing').
Proof.
  intros H N'.
  change [r0; r1; r2; k0; k1; k2]
    with (orientation_of (Vec3 r0 r1 r2) (Vec3 k0 k1 k2)) in *.
  set (u := Vec3 r0 r1 r2) in *. set (v := Vec3 k0 k1 k2) in *.
  assert (N : slice_spacing <> 0).
  { unfold map_coordinate_into_pixel_matrix in H.
    apply bind_Ok in H. destruct H as [g [Hg _]].
    apply build_inverse_transform_Ok_regular in Hg.
    destruct Hg as (_ & _ & _ & _ & _ & _ & _ & _ & _ & Hs & _).
    exact Hs. }
  destruct (map_coordinate_into_pixel_matrix_Ok _ _ _ _ _ _ _ _ _ _ _ _ H)
    as (i & _ & Hl & Hq).
  rewrite (map_coordinate_by_inverse _ _ _ _ _ _ _ _ _ _ _
             (mul3 (diagm 1 1 (slice_spacing / slice_spacing')) i)).
  - assert (E : dot3 i (sub3 (Vec3 px py pz) (Vec3 x y z))
                = Vec3 column row slice).
    { simpl in Hq. rewrite Hq. destruct i; apply vec3_eq; simpl; ring. }
    rewrite dot3_mul3, E. unfold tuple_of; simpl.
    f_equal. apply triple_eq; field; assumption.
  - assert (F : scaled_basis u v s0 s1 slice_spacing'
                = mul3 (scaled_basis u v s0 s1 slice_spacing)
                       (diagm 1 1 (slice_spacing' / slice_spacing))).
    { unfold u, v; apply mat3_eq; simpl; field; assumption. }
    rewrite F, mul3_assoc, <- (mul3_assoc i), Hl, mul3_eye_l, diagm_mul.
    apply mat3_eq; simpl; try reflexivity; field; split; assumption.
Qed.

Lemma map_coordinate_slice_spacing_witness :
  map_coordinate_into_pixel_matrix [13; 22; 38] [10; 20; 30]
    [1; 0; 0; 0; 1; 0] [2; 3] 4 = Ok (1, 1, 2) /\
  8 <> 0 /\
  map_coordinate_into_pixel_matrix [13; 22; 38] [10; 20; 30]
    [1; 0; 0; 0; 1; 0] [2; 3] 8 = Ok (1, 1, 2 * 4 / 8).
Proof.
  assert (H8 : 8 <> 0) by lra.
  split; [exact scenario_reference_point |]. split; [exact H8 |].
  exact (map_coordinate_slice_spacing 13 22 38 10 20 30 1 0 0 0 1 0 2 3 4 8
           1 1 2 scenario_reference_point H8).
Defined.

(** ** Further properties of the angle extraction *)

Lemma neqb_0_0 : neqb 0 0 = false.
Proof. apply neqb_false; reflexivity. Qed.

(** [compute_rotation] on a planar orientation. *)
Lemma compute_rotation_planar (r0 r1 k0 k1 : R) (in_degrees : bool) :
  compute_rotation [r0; r1; 0; k0; k1; 0] in_degrees
  = if ltb (r0 * k1 - r1 * k0) 0
    then Raise (ValueError FlippedOrientation)
    else Ok (if in_degrees then degrees (arctan2 (fneg (of_real k0)) r0)
             else arctan2 (fneg (of_real k0)) r0).
Proof.
  rewrite compute_rotation_shape. cbv zeta. rewrite neqb_0_0. reflexivity.
Qed.

Lemma degrees_range (a : R) :
  - PI <= a <= PI -> - 180 <= degrees a <= 180.
Proof.
  intros [Hl Hu]. unfold degrees.
  pose proof PI_RGT_0 as P.
  assert (K : 0 < 180 / PI) by (apply Rdiv_lt_0_compat; lra).
  assert (E : PI * (180 / PI) = 180) by (field; lra).
  split; nra.
Qed.

Lemma degrees_minus_PI : degrees (- PI) = - 180.
Proof.
  unfold degrees. field. exact PI_neq0.
Qed.

(** The half turn: the first argument of [np.arctan2] is [-(0.0)]. *)
Lemma compute_rotation_half_turn :
  compute_rotation [-1; 0; 0; 0; -1; 0] false = Ok (- PI) /\
  compute_rotation [-1; 0; 0; 0; -1; 0] true = Ok (- 180).
Proof.
  rewrite !compute_rotation_planar.
  assert (L : ltb (-1 * -1 - 0 * 0) 0 = false) by (apply ltb_false; lra).
  rewrite L, arctan2_negated_zero by lra.
  rewrite degrees_minus_PI. split; reflexivity.
Qed.

(** X15.  [compute_rotation] recovers the angle of a rotation about the
    normal: for the row cosines (cos t, sin t, 0) and the column cosines
    (- sin t, cos t, 0) with t strictly between -PI and PI it returns t,
    and t * 180 / PI when degrees are requested.  For the half turn
    (-1, 0, 0, 0, -1, 0) it returns -PI, and -180 in degrees: the first
    argument of [np.arctan2] is then the negative zero [-(0.0)]. *)
Theorem compute_rotation_recovers_angle :
  (forall t : R,
     - PI < t < PI ->
     compute_rotation [cos t; sin t; 0; - sin t; cos t; 0] false = Ok t /\
     compute_rotation [cos t; sin t; 0; - sin t; cos t; 0] true
     = Ok (t * (180 / PI))) /\
  compute_rotation [-1; 0; 0; 0; -1; 0] false = Ok (- PI) /\
  compute_rotation [-1; 0; 0; 0; -1; 0] true = Ok (- 180).
Proof.
  split.
  - intros t H. rewrite !compute_rotation_planar.
    assert (L : ltb (cos t * cos t - sin t * - sin t) 0 = false).
    { apply ltb_false. pose proof (sin2_cos2 t) as S.
      unfold Rsqr in S. nra. }
    rewrite L, arctan2_negated by (apply off_negative_axis; exact H).
    rewrite Ropp_involutive, principal_angle_sin_cos by lra.
    split; reflexivity.
  - exact compute_rotation_half_turn.
Qed.

Lemma compute_rotation_recovers_angle_witness :
  - PI < PI / 2 < PI /\
  compute_rotation [cos (PI / 2); sin (PI / 2); 0;
                    - sin (PI / 2); cos (PI / 2); 0] false = Ok (PI / 2) /\
  compute_rotation [cos (PI / 2); sin (PI / 2); 0;
                    - sin (PI / 2); cos (PI / 2); 0] true
  = Ok (PI / 2 * (180 / PI)).
Proof.
  assert (H : - PI < PI / 2 < PI) by (pose proof PI_RGT_0; lra).
  split; [exact H |].
  destruct compute_rotation_recovers_angle as [G _].
  exact (G (PI / 2) H).
Defined.

(** What a returned angle is made of. *)
Lemma compute_rotation_Ok (o : list R) (in_degrees : bool) (a : R) :
  compute_rotation o in_degrees = Ok a ->
  exists (y : signed) (x : R),
    a = if in_degrees then degrees (arctan2 y x) else arctan2 y x.
Proof.
  unfold compute_rotation. intro H.
  apply bind_Ok in H. destruct H as [z [_ H]].
  apply bind_Ok in H. destruct H as [b [_ H]].
  destruct b; [discriminate H |].
  apply bind_Ok in H. destruct H as [m [_ H]].
  destruct (ltb (a22 m) 0); [discriminate H |].
  exists (fneg (of_real (a01 m))), (a00 m).
  destruct in_degrees; inversion H; reflexivity.
Qed.

(** X16.  An angle returned by [compute_rotation] lies in [-PI, PI], or
    in [-180, 180] when degrees are requested, whatever the orientation
    is; the half turn (-1, 0, 0, 0, -1, 0) reaches the lower end. *)
Theorem compute_rotation_range
    (orientation : list R) (in_degrees : bool) (angle : R) :
  compute_rotation orientation in_degrees = Ok angle ->
  if in_degrees then - 180 <= angle <= 180 else - PI <= angle <= PI.
Proof.
  intro H. apply compute_rotation_Ok in H. destruct H as (y & x & ->).
  destruct in_degrees.
  - apply degrees_range. apply arctan2_range.
  - apply arctan2_range.
Qed.

Lemma compute_rotation_range_witness :
  compute_rotation [-1; 0; 0; 0; -1; 0] true = Ok (- 180) /\
  - 180 <= - 180 <= 180.
Proof.
  destruct compute_rotation_half_turn as [_ H].
  split; [exact H |].
  exact (compute_rotation_range [-1; 0; 0; 0; -1; 0] true (- 180) H).
Defined.

Lemma independent_planar (r0 r1 k0 k1 : R) :
  independent (Vec3 r0 r1 0) (Vec3 k0 k1 0) -> r0 * k1 - r1 * k0 <> 0.
Proof.
  intros I E. apply independent_cross in I. apply I.
  unfold norm2; simpl. rewrite E. ring.
Qed.

(** X17.  Of a planar orientation with linearly independent cosines and
    the orientation with row and column cosines swapped, exactly one is
    accepted: the other one is rejected as flipped. *)
Theorem compute_rotation_swap (r0 r1 k0 k1 : R) (in_degrees : bool) :
  independent (Vec3 r0 r1 0) (Vec3 k0 k1 0) ->
  ((exists angle,
      compute_rotation [r0; r1; 0; k0; k1; 0] in_degrees = Ok angle) /\
   compute_rotation [k0; k1; 0; r0; r1; 0] in_degrees
   = Raise (ValueError FlippedOrientation))
  \/
  (compute_rotation [r0; r1; 0; k0; k1; 0] in_degrees
   = Raise (ValueError FlippedOrientation) /\
   exists angle,
     compute_rotation [k0; k1; 0; r0; r1; 0] in_degrees = Ok angle).
Proof.
  intro I. apply independent_planar in I.
  rewrite !compute_rotation_planar.
  destruct (Rlt_dec (r0 * k1 - r1 * k0) 0) as [L | G].
  - right.
    assert (A : ltb (r0 * k1 - r1 * k0) 0 = true) by (apply ltb_true; lra).
    assert (B : ltb (k0 * r1 - k1 * r0) 0 = false) by (apply ltb_false; lra).
    rewrite A, B. split; [reflexivity | eexists; reflexivity].
  - left.
    assert (A : ltb (r0 * k1 - r1 * k0) 0 = false) by (apply ltb_false; lra).
    assert (B : ltb (k0 * r1 - k1 * r0) 0 = true) by (apply ltb_true; lra).
    rewrite A, B. split; [eexists; reflexivity | reflexivity].
Qed.

Lemma compute_rotation_swap_witness :
  independent (Vec3 1 0 0) (Vec3 0 1 0) /\
  (((exists angle, compute_rotation [1; 0; 0; 0; 1; 0] false = Ok angle) /\
    compute_rotation [0; 1; 0; 1; 0; 0] false
    = Raise (ValueError FlippedOrientation))
   \/
   (compute_rotation [1; 0; 0; 0; 1; 0] false
    = Raise (ValueError FlippedOrientation) /\
    exists angle, compute_rotation [0; 1; 0; 1; 0; 0] false = Ok angle)).
Proof.
  split; [exact independent_xy |].
  exact (compute_rotation_swap 1 0 0 1 false independent_xy).
Defined.

(** X18.  [compute_rotation] on an orientation that does not consist of
    six numbers.  Index 2 is read first: without it [IndexError] is
    raised, and if it is nonzero the planar-rotation error is raised
    without looking further, even when index 5 is missing.  If it is zero,
    a missing index 5 raises [IndexError] and a nonzero one the
    planar-rotation error.  With both zero, more than six elements raise
    the shape error of numpy. *)
Theorem compute_rotation_malformed
    (orientation : list R) (in_degrees : bool) :
  ((length orientation <= 2)%nat ->
   compute_rotation orientation in_degrees = Raise IndexError) /\
  (forall v, item orientation 2 = Ok v -> v <> 0 ->
   compute_rotation orientation in_degrees
   = Raise (ValueError NotPlanarRotation)) /\
  (item orientation 2 = Ok 0 -> (length orientation <= 5)%nat ->
   compute_rotation orientation in_degrees = Raise IndexError) /\
  (forall w, item orientation 2 = Ok 0 -> item orientation 5 = Ok w ->
   w <> 0 ->
   compute_rotation orientation in_degrees
   = Raise (ValueError NotPlanarRotation)) /\
  (item orientation 2 = Ok 0 -> item orientation 5 = Ok 0 ->
   (7 <= length orientation)%nat ->
   compute_rotation orientation in_degrees
   = Raise (ValueError ShapeMismatch)).
Proof.
  unfold compute_rotation.
  split; [| split; [| split; [| split]]].
  - intro H. rewrite (item_short _ 2 H). reflexivity.
  - intros v H N. rewrite H; simpl.
    apply neqb_true in N. rewrite N. reflexivity.
  - intros H L. rewrite H; simpl. rewrite neqb_0_0.
    rewrite (item_short _ 5 L). reflexivity.
  - intros w H H5 N. rewrite H; simpl. rewrite neqb_0_0, H5; simpl.
    apply neqb_true in N. rewrite N. reflexivity.
  - intros H H5 L. rewrite H; simpl. rewrite neqb_0_0, H5; simpl.
    rewrite neqb_0_0.
    rewrite create_rotation_matrix_not_six by lia. reflexivity.
Qed.

Lemma compute_rotation_malformed_witness :
  compute_rotation [1; 0] false = Raise IndexError /\
  compute_rotation [0; 0; 1] false = Raise (ValueError NotPlanarRotation) /\
  compute_rotation [1; 0; 0; 0; 1] false = Raise IndexError /\
  compute_rotation [1; 0; 0; 0; 1; 0; 0] false
  = Raise (ValueError ShapeMismatch).
Proof.
  assert (N : (1 : R) <> 0) by lra.
  split; [| split; [| split]].
  - destruct (compute_rotation_malformed [1; 0] false) as (H & _).
    apply H. simpl. lia.
  - destruct (compute_rotation_malformed [0; 0; 1] false) as (_ & H & _).
    apply (H 1); [reflexivity | exact N].
  - destruct (compute_rotation_malformed [1; 0; 0; 0; 1] false)
      as (_ & _ & H & _).
    apply H; [reflexivity | simpl; lia].
  - destruct (compute_rotation_malformed [1; 0; 0; 0; 1; 0; 0] false)
      as (_ & _ & _ & _ & H).
    apply H; [reflexivity | reflexivity | simpl; lia].
Defined.

Lemma principal_angle_scale (k y x : R) :
  0 < k -> principal_angle (k * y) (k * x) = principal_angle y x.
Proof.
  intro K.
  destruct (Rlt_dec 0 x) as [Hx | Hx].
  - rewrite !principal_angle_right by nra. f_equal. field. lra.
  - destruct (Rlt_dec x 0) as [Hx' | Hx'].
    + destruct (Rle_dec 0 y) as [Hy | Hy].
      * rewrite !principal_angle_upper_left by nra. f_equal. f_equal. field. lra.
      * rewrite !principal_angle_lower_left by nra. f_equal. f_equal. field. lra.
    + assert (E : x = 0) by lra. subst x. rewrite Rmult_0_r.
      destruct (Rlt_dec 0 y) as [Hy | Hy].
      * rewrite !principal_angle_up by nra. reflexivity.
      * destruct (Rlt_dec y 0) as [Hy' | Hy'].
        -- rewrite !principal_angle_down by nra. reflexivity.
        -- assert (E : y = 0) by lra. subst y. rewrite Rmult_0_r.
           reflexivity.
Qed.

Lemma arctan2_scale (k v x : R) :
  0 < k ->
  arctan2 (fneg (of_real (k * v))) (k * x) = arctan2 (fneg (of_real v)) x.
Proof.
  intro K.
  destruct (Rlt_dec x 0) as [Hx | Hx].
  - destruct (Req_dec_T v 0) as [E | N].
    + subst v. rewrite Rmult_0_r, !arctan2_negated_zero by nra.
      reflexivity.
    + rewrite !arctan2_negated by (left; nra).
      replace (- (k * v)) with (k * - v) by ring.
      apply principal_angle_scale. exact K.
  - rewrite !arctan2_negated by (right; nra).
    replace (- (k * v)) with (k * - v) by ring.
    apply principal_angle_scale. exact K.
Qed.

Lemma neqb_scale (k x : R) : 0 < k -> neqb (k * x) 0 = neqb x 0.
Proof.
  intro K. destruct (neqb x 0) eqn:E.
  - apply neqb_true in E. apply neqb_true. nra.
  - apply neqb_false in E. apply neqb_false. subst x. ring.
Qed.

Lemma ltb_scale (k x : R) : 0 < k -> ltb (k * x) 0 = ltb x 0.
Proof.
  intro K. destruct (ltb x 0) eqn:E.
  - apply ltb_true in E. apply ltb_true. nra.
  - apply ltb_false in E. apply ltb_false. nra.
Qed.

(** X19.  [compute_rotation] needs no normalised cosines: multiplying all
    six numbers of the orientation by the same positive factor changes
    neither the error raised nor the angle returned. *)
Theorem compute_rotation_scale_invariant
    (k r0 r1 r2 k0 k1 k2 : R) (in_degrees : bool) :
  0 < k ->
  compute_rotation [k * r0; k * r1; k * r2; k * k0; k * k1; k * k2]
    in_degrees
  = compute_rotation [r0; r1; r2; k0; k1; k2] in_degrees.
Proof.
  intro K. rewrite !compute_rotation_shape. cbv zeta.
  rewrite !(neqb_scale k) by exact K.
  assert (A : a22 (basis (Vec3 (k * r0) (k * r1) (k * r2))
                         (Vec3 (k * k0) (k * k1) (k * k2)))
              = (k * k) * a22 (basis (Vec3 r0 r1 r2) (Vec3 k0 k1 k2)))
    by (simpl; ring).
  rewrite A, ltb_scale by nra.
  simpl a01. simpl a00.
  rewrite arctan2_scale by exact K. reflexivity.
Qed.

Lemma compute_rotation_scale_invariant_witness :
  0 < 2 /\
  compute_rotation [2 * 0; 2 * 1; 2 * 0; 2 * -1; 2 * 0; 2 * 0] true
  = compute_rotation [0; 1; 0; -1; 0; 0] true.
Proof.
  assert (K : 0 < 2) by lra.
  split; [exact K |].
  exact (compute_rotation_scale_invariant 2 0 1 0 (-1) 0 0 true K).
Defined.

(** Every point of the unit circle has an angle in (-PI, PI]. *)
Lemma unit_circle_angle (x y : R) :
  x * x + y * y = 1 ->
  exists t, - PI < t <= PI /\ cos t = x /\ sin t = y.
Proof.
  intro U. pose proof PI_RGT_0 as P.
  assert (Bx : -1 <= x <= 1) by (split; nra).
  pose proof (acos_bound x) as [A0 A1].
  pose proof (cos_acos x Bx) as C.
  pose proof (sin_acos x Bx) as S.
  assert (Q : 1 - x² = y * y) by (unfold Rsqr; lra).
  rewrite Q in S.
  destruct (Rle_dec 0 y) as [Hy | Hy].
  - exists (acos x). split; [lra |]. split; [exact C |].
    rewrite S. apply sqrt_square. exact Hy.
  - exists (- acos x).
    assert (Lt : acos x < PI).
    { destruct A1 as [A1 | A1]; [exact A1 |].
      exfalso. rewrite A1, cos_PI in C. subst x. nra. }
    split; [lra |]. split.
    + rewrite cos_neg. exact C.
    + rewrite sin_neg, S.
      replace (y * y) with ((- y) * (- y)) by ring.
      rewrite sqrt_square by lra. ring.
Qed.

Lemma principal_angle_unit (x y : R) :
  x * x + y * y = 1 ->
  cos (principal_angle y x) = x /\ sin (principal_angle y x) = y.
Proof.
  intro U. destruct (unit_circle_angle x y U) as (t & B & <- & <-).
  rewrite principal_angle_sin_cos by exact B. split; reflexivity.
Qed.

Lemma arctan2_unit (y : signed) (x : R) :
  x * x + value y * value y = 1 ->
  cos (arctan2 y x) = x /\ sin (arctan2 y x) = value y.
Proof.
  intro U. unfold arctan2.
  destruct (Rlt_dec x 0) as [Hx | Hx];
    [| apply principal_angle_unit; exact U].
  destruct (Req_dec_T (value y) 0) as [E | N];
    [| apply principal_angle_unit; exact U].
  rewrite E in *. assert (X : x = -1) by nra. subst x.
  destruct (negative_zero y).
  - rewrite cos_neg, sin_neg, cos_PI, sin_PI. split; ring.
  - rewrite cos_PI, sin_PI. split; reflexivity.
Qed.

(** X20.  For orthonormal planar direction cosines the angle
    [compute_rotation] returns determines the orientation: the row cosines
    are (cos a, sin a, 0) and the column cosines (- sin a, cos a, 0). *)
Theorem compute_rotation_determines_orientation (r0 r1 k0 k1 angle : R) :
  orthonormal (Vec3 r0 r1 0) (Vec3 k0 k1 0) ->
  compute_rotation [r0; r1; 0; k0; k1; 0] false = Ok angle ->
  r0 = cos angle /\ r1 = sin angle /\
  k0 = - sin angle /\ k1 = cos angle.
Proof.
  intros (Hr & Hc & Ho) H.
  unfold dotp in Hr, Hc, Ho; simpl in Hr, Hc, Ho.
  rewrite compute_rotation_planar in H.
  destruct (ltb (r0 * k1 - r1 * k0) 0) eqn:L; [discriminate H |].
  apply ltb_false in L. injection H as E.
  assert (D : r0 * k1 - r1 * k0 = 1).
  { assert (S : (r0 * k1 - r1 * k0) * (r0 * k1 - r1 * k0) = 1).
    { transitivity ((r0 * r0 + r1 * r1 + 0 * 0) * (k0 * k0 + k1 * k1 + 0 * 0)
                    - (r0 * k0 + r1 * k1 + 0 * 0) * (r0 * k0 + r1 * k1 + 0 * 0)).
      - ring.
      - rewrite Hr, Hc, Ho. ring. }
    nra. }
  assert (K0 : k0 = - r1).
  { assert (Z : k0 * (r0 * r0 + r1 * r1 + 0 * 0)
                - r0 * (r0 * k0 + r1 * k1 + 0 * 0)
                + r1 * (r0 * k1 - r1 * k0) = 0) by ring.
    rewrite Hr, Ho, D in Z. lra. }
  assert (K1 : k1 = r0).
  { assert (Z : k1 * (r0 * r0 + r1 * r1 + 0 * 0)
                - r1 * (r0 * k0 + r1 * k1 + 0 * 0)
                - r0 * (r0 * k1 - r1 * k0) = 0) by ring.
    rewrite Hr, Ho, D in Z. lra. }
  assert (U : r0 * r0 + r1 * r1 = 1) by lra.
  destruct (arctan2_unit (fneg (of_real k0)) r0) as [C S].
  { simpl. rewrite K0. lra. }
  simpl in S. rewrite <- E, C, S, K1, K0.
  repeat split; ring.
Qed.

Lemma orthonormal_quarter_turn : orthonormal (Vec3 0 1 0) (Vec3 (-1) 0 0).
Proof.
  unfold orthonormal, dotp; simpl. repeat split; ring.
Qed.

Lemma compute_rotation_quarter_turn_radians :
  compute_rotation [0; 1; 0; -1; 0; 0] false = Ok (PI / 2).
Proof.
  rewrite compute_rotation_planar.
  assert (L : ltb (0 * 0 - 1 * -1) 0 = false) by (apply ltb_false; lra).
  rewrite L, arctan2_negated, principal_angle_up by lra. reflexivity.
Qed.

Lemma compute_rotation_determines_orientation_witness :
  orthonormal (Vec3 0 1 0) (Vec3 (-1) 0 0) /\
  compute_rotation [0; 1; 0; -1; 0; 0] false = Ok (PI / 2) /\
  0 = cos (PI / 2) /\ 1 = sin (PI / 2) /\
  -1 = - sin (PI / 2) /\ 0 = cos (PI / 2).
Proof.
  split; [exact orthonormal_quarter_turn |].
  split; [exact compute_rotation_quarter_turn_radians |].
  exact (compute_rotation_determines_orientation 0 1 (-1) 0 (PI / 2)
           orthonormal_quarter_turn compute_rotation_quarter_turn_radians).
Defined.

(** ** Invariance and composition *)

(** X21.  [map_coordinate_into_pixel_matrix] depends on the reference
    point and the position only through their difference: moving both by
    the same offset changes neither the pixel coordinate returned nor the
    error raised. *)
Theorem map_coordinate_translation_invariant
    (px py pz x y z dx dy dz r0 r1 r2 k0 k1 k2 s0 s1 slice_spacing : R) :
  map_coordinate_into_pixel_matrix [px + dx; py + dy; pz + dz]
    [x + dx; y + dy; z + dz] [r0; r1; r2; k0; k1; k2] [s0; s1] slice_spacing
  = map_coordinate_into_pixel_matrix [px; py; pz] [x; y; z]
      [r0; r1; r2; k0; k1; k2] [s0; s1] slice_spacing.
Proof.
  change [r0; r1; r2; k0; k1; k2]
    with (orientation_of (Vec3 r0 r1 r2) (Vec3 k0 k1 k2)).
  unfold map_coordinate_into_pixel_matrix.
  rewrite !build_inverse_transform_shape.
  destruct (linalg_inv _) as [i | e]; [| reflexivity].
  destruct i. unfold apply_inverse_transform, first3; simpl.
  f_equal. apply triple_eq; ring.
Qed.

(** X22.  Applying two matrices one after the other is applying their
    product: for a matrix [first] whose last row is (0, 0, 0, 1), as every
    matrix of the two builders is, [apply_inverse_transform] of a second
    matrix on the point [apply_transform] returns equals [apply_transform]
    of the product second * first on the pixel coordinate. *)
Theorem apply_composes
    (column row : R) (linear : mat3) (translation : vec3) (second : mat4) :
  exists point,
    apply_transform [column; row] (affine_of linear translation) = Ok point /\
    apply_inverse_transform (seq_of point) second
    = apply_transform [column; row]
        (mul4 second (affine_of linear translation)).
Proof.
  eexists. split; [reflexivity |].
  destruct linear, translation, second.
  unfold apply_inverse_transform, apply_transform, first3; simpl.
  f_equal. apply triple_eq; ring.
Qed.
